(** * memspy: a memory probe that samples a child process at regular intervals

    A shallow embedding of [memspy.py].  The operating system (the process
    table read through psutil, the file system, the child's pipes, the
    clock) is an explicit environment; the program's functions are Rocq
    functions over it, fallible ones returning a sum with the exception on
    the left.

    Python values are modelled as follows.
    - [int] is [Z].
    - [str] is [string]; a character is a code point below 256.
    - [float] appears only in [mem / (1024*1024)], formatted with [.3f].
      It is modelled exactly: the quotient is rounded to 53 significant
      bits (ties to even), and the decimal rendering rounds the resulting
      binary value to thousandths (ties to even).
    - an exception is a value of [exn]; [str(e)] is its message. *)

From Stdlib Require Import ZArith Ascii String DecimalString DecimalPos Lia.
From stdpp Require Import gmap strings list.

Local Open Scope Z_scope.

(** ** Python text primitives *)

Module Py.

Definition LF : ascii := "010"%char.

(** The double quote. *)
Definition DQUOTE : ascii := "034"%char.

(** The carriage return. *)
Definition CR : ascii := "013"%char.

Definition code (c : ascii) : N := N_of_ascii c.

(** [str(n)] for an [int]. (The interpreter's limit on the number of digits
    it converts, 4300 by default where there is one, is not modelled: the
    properties that depend on it say so.) *)
Definition str_of_int (n : Z) : string :=
  NilZero.string_of_int (Z.to_int n).

Fixpoint repeat_char (c : ascii) (n : nat) : string :=
  match n with
  | O => EmptyString
  | S n' => String c (repeat_char c n')
  end.

(** A non-negative number in at least [width] digits, zero-filled on the
    left, as [%02d] and the like render it. *)
Definition zero_pad (width : nat) (n : Z) : string :=
  let s := str_of_int n in
  repeat_char "0"%char (width - String.length s) +:+ s.

(** [str.isspace] on one code point below 256. *)
Definition isspace (c : ascii) : bool :=
  let k := code c in
  ((9 <=? k) && (k <=? 13) || (28 <=? k) && (k <=? 32)
   || (k =? 133) || (k =? 160))%N.

(** [s.rstrip()]: every trailing whitespace character is removed. *)
Fixpoint rstrip (s : string) : string :=
  match s with
  | EmptyString => EmptyString
  | String c s' =>
      match rstrip s' with
      | EmptyString => if isspace c then EmptyString else String c EmptyString
      | r => String c r
      end
  end.

(** [str.isprintable] on one code point below 256. *)
Definition isprintable (c : ascii) : bool :=
  let k := code c in
  ((32 <=? k) && (k <? 127) || (161 <=? k) && negb (k =? 173))%N.

Definition hex_digit (k : N) : ascii :=
  (if k <? 10 then ascii_of_N (48 + k) else ascii_of_N (87 + k))%N.

Fixpoint contains_char (c : ascii) (s : string) : bool :=
  match s with
  | EmptyString => false
  | String d s' => Ascii.eqb c d || contains_char c s'
  end.

(** The quote [repr] chooses: a double quote only when the text holds a
    single quote and no double quote. *)
Definition repr_quote (s : string) : ascii :=
  if contains_char "'"%char s && negb (contains_char DQUOTE s)
  then DQUOTE else "'"%char.

Definition repr_char (quote c : ascii) : string :=
  if Ascii.eqb c quote || Ascii.eqb c "\"%char
  then String "\"%char (String c EmptyString)
  else if Ascii.eqb c "009"%char then "\t"
  else if Ascii.eqb c "010"%char then "\n"
  else if Ascii.eqb c "013"%char then "\r"
  else if isprintable c then String c EmptyString
  else String "\"%char (String "x"%char
         (String (hex_digit (code c / 16)) (String (hex_digit (code c mod 16)) EmptyString))).

Fixpoint repr_body (quote : ascii) (s : string) : string :=
  match s with
  | EmptyString => EmptyString
  | String c s' => repr_char quote c +:+ repr_body quote s'
  end.

(** [repr(s)] for a [str]. *)
Definition repr_str (s : string) : string :=
  let q := repr_quote s in
  String q (repr_body q s +:+ String q EmptyString).

Fixpoint join (sep : string) (l : list string) : string :=
  match l with
  | [] => EmptyString
  | [x] => x
  | x :: l' => x +:+ sep +:+ join sep l'
  end.

(** [str(l)] for a list of [str], which an f-string field renders. *)
Definition str_of_list (l : list string) : string :=
  "[" +:+ join ", " (map repr_str l) +:+ "]".

(** [a / b] rounded to the nearest integer, ties to the even one
    ([0 < b]). *)
Definition round_half_even (a b : Z) : Z :=
  let q := a / b in
  let r := a mod b in
  if 2 * r <? b then q
  else if b <? 2 * r then q + 1
  else if Z.even q then q else q + 1.

(** A non-negative integer rounded to 53 significant bits. *)
Definition round_to_53_bits (n : Z) : Z :=
  let k := Z.log2 n - 52 in
  if k <=? 0 then n else round_half_even n (2 ^ k) * 2 ^ k.

(** The float [n / (1024*1024)] for [0 <= n], as its numerator over
    [2^20]; [None] is OverflowError (the quotient exceeds the largest
    float). *)
Definition true_div_mib (n : Z) : option Z :=
  let m := round_to_53_bits n in
  if m <? 2 ^ 1044 then Some m else None.

(** The thousandths that [.3f] prints for the float [m / 2^20]. *)
Definition thousandths (m : Z) : Z := round_half_even (1000 * m) (2 ^ 20).

Definition fixed3 (t : Z) : string :=
  str_of_int (t / 1000) +:+ "." +:+ zero_pad 3 (t mod 1000).

(** [f"{mem / (1024*1024):.3f}"]. *)
Definition format_mib (mem : Z) : option string :=
  match true_div_mib (Z.abs mem) with
  | None => None
  | Some m =>
      Some ((if mem <? 0 then "-" else "") +:+ fixed3 (thousandths m))
  end.

End Py.

(** ** Exceptions

    Every class here derives from [Exception].  [NoSuchProcess] stands for
    [psutil.NoSuchProcess] and its subclasses, which one [except] clause
    catches together. *)

Inductive exn : Type :=
  | NoSuchProcess (msg : string)
  | FileNotFoundError (msg : string)
  | PermissionError (msg : string)
  | OverflowError (msg : string)
  | ValueError (msg : string)
  | OtherException (msg : string).

(** [str(e)]. *)
Definition str_of_exn (e : exn) : string :=
  match e with
  | NoSuchProcess m | FileNotFoundError m | PermissionError m
  | OverflowError m | ValueError m | OtherException m => m
  end.

Definition is_NoSuchProcess (e : exn) : bool :=
  match e with NoSuchProcess _ => true | _ => false end.

(** A computation that returns or raises. *)
Definition raises (A : Type) : Type := exn + A.

Definition bind_raises {A B : Type} (m : raises A) (k : A -> raises B) : raises B :=
  match m with
  | inl e => inl e
  | inr a => k a
  end.

Notation "x <- m ;; k" := (bind_raises m (fun x => k))
  (at level 100, m at next level, right associativity, only parsing).

(** ** Data model *)

Record ProcessInfo : Type := {
  pid : Z;
  mem : Z;
  cmd : list string
}.

Record ProcessTreeInfo : Type := {
  pi : ProcessInfo;
  children : list ProcessInfo
}.

(** ** The process table, as psutil shows it during one call *)

(** One descendant that [children(recursive=True)] enumerated: its pid, and
    what [memory_info().rss] and [cmdline()] answer when asked. *)
Record child_view : Type := {
  cv_pid : Z;
  cv_memory_info : raises Z;
  cv_cmdline : raises (list string)
}.

(** What the calls on one pid answer: [psutil.Process(pid)] ([Some e] when it
    raises), [memory_info().rss] and [children(recursive=True)]. *)
Record process_view : Type := {
  pv_lookup : option exn;
  pv_memory_info : raises Z;
  pv_children : raises (list child_view)
}.

Definition psutil : Type := Z -> process_view.

(** ** ProcessSnapshot collector *)

(** One turn of the [for child in children] loop: the entry is built only
    when both reads return; any exception skips the child. *)
Definition inspect_child (child : child_view) : option ProcessInfo :=
  match cv_memory_info child with
  | inl _ => None
  | inr rss =>
      match cv_cmdline child with
      | inl _ => None
      | inr cmdline => Some {| pid := cv_pid child; mem := rss; cmd := cmdline |}
      end
  end.

(** The loop, appending to [process_tree_info.children]. *)
Fixpoint collect_children (enumerated : list child_view) (acc : list ProcessInfo)
  : list ProcessInfo :=
  match enumerated with
  | [] => acc
  | child :: rest =>
      match inspect_child child with
      | Some info => collect_children rest (acc ++ [info])
      | None => collect_children rest acc
      end
  end.

(** The first [try] block: look the process up and read its memory. *)
Definition root_memory (v : process_view) : raises Z :=
  match pv_lookup v with
  | Some e => inl e
  | None => pv_memory_info v
  end.

Definition get_process_tree_info (ps : psutil) (p : Z) : raises (option ProcessTreeInfo) :=
  match root_memory (ps p) with
  | inl e => if is_NoSuchProcess e then inr None else inl e
  | inr rss =>
      let root_info := {| pid := p; mem := rss; cmd := [] |} in
      match pv_children (ps p) with
      | inl _ => inr (Some {| pi := root_info; children := [] |})
      | inr enumerated =>
          inr (Some {| pi := root_info; children := collect_children enumerated [] |})
      end
  end.

(** ** Log record formatter *)

Record datetime : Type := {
  year : Z; month : Z; day : Z;
  hour : Z; minute : Z; second : Z;
  microsecond : Z
}.

(** [t.strftime("%Y-%m-%d %H:%M:%S")].  (Years below 1000, which the clock
    never reports, are shown zero-filled.) *)
Definition strftime (t : datetime) : string :=
  Py.zero_pad 4 (year t) +:+ "-" +:+ Py.zero_pad 2 (month t) +:+ "-" +:+
  Py.zero_pad 2 (day t) +:+ " " +:+ Py.zero_pad 2 (hour t) +:+ ":" +:+
  Py.zero_pad 2 (minute t) +:+ ":" +:+ Py.zero_pad 2 (second t).

Definition overflow : exn :=
  OverflowError "integer division result too large for a float".

(** [f"{n / (1024*1024):.3f}"], raising where the division does. *)
Definition mib (n : Z) : raises string :=
  match Py.format_mib n with
  | Some s => inr s
  | None => inl overflow
  end.

(** One element of the list comprehension over the children. *)
Definition child_txt (timestamp : string) (c : ProcessInfo) : raises string :=
  m <- mib (mem c) ;;
  inr ("prob> [" +:+ timestamp +:+ "]   - pid=" +:+ Py.str_of_int (pid c) +:+
       ", mem=" +:+ m +:+ "M, cmd=" +:+ Py.str_of_list (cmd c) +:+ String Py.LF "").

(** [''.join([... for c in children])]. *)
Fixpoint children_txt (timestamp : string) (cs : list ProcessInfo) : raises string :=
  match cs with
  | [] => inr ""
  | c :: cs' =>
      line <- child_txt timestamp c ;;
      rest <- children_txt timestamp cs' ;;
      inr (line +:+ rest)
  end.

(** [ProcessTreeInfoPrinter(pt).produce_txt()], when [datetime.now()]
    answers [now]. *)
Definition produce_txt (now : datetime) (pt : ProcessTreeInfo) : raises string :=
  let timestamp := strftime now in
  m <- mib (mem (pi pt)) ;;
  cs <- children_txt timestamp (children pt) ;;
  inr ("prob> [" +:+ timestamp +:+ "] pid=" +:+ Py.str_of_int (pid (pi pt)) +:+
       ", mem=" +:+ m +:+ "M :" +:+ String Py.LF "" +:+ cs).

(** ** Stream drainer *)

(** A text stream: the read end of a pipe opened with universal newlines.
    It holds the characters received and not yet read, as the writer wrote
    them, and whether the writer has closed it. *)
Record text_stream : Type := {
  unread : string;
  closed : bool
}.

(** The first line of a text under universal newlines, and the rest. A line
    ends at a line feed, at a carriage return followed by a line feed, or at
    a carriage return alone; whichever it was, the line returned ends with a
    single line feed. [None] when no line is complete: no terminator is
    there, or the text ends with a carriage return that a line feed may
    still follow ([final] tells that nothing more will come). *)
Fixpoint take_line (final : bool) (s : string) : option (string * string) :=
  match s with
  | EmptyString => None
  | String c s' =>
      if Ascii.eqb c Py.LF then Some (String Py.LF EmptyString, s')
      else if Ascii.eqb c Py.CR then
        match s' with
        | EmptyString =>
            if final then Some (String Py.LF EmptyString, EmptyString) else None
        | String d s'' =>
            if Ascii.eqb d Py.LF then Some (String Py.LF EmptyString, s'')
            else Some (String Py.LF EmptyString, s')
        end
      else match take_line final s' with
           | Some (l, r) => Some (String c l, r)
           | None => None
           end
  end.

(** [stream.readline()]: a whole line when one is there; at end of input
    whatever is left (the empty string once nothing is); [None] when the
    call blocks, waiting for the writer. *)
Definition readline (st : text_stream) : option (string * text_stream) :=
  match take_line (closed st) (unread st) with
  | Some (l, r) => Some (l, {| unread := r; closed := closed st |})
  | None =>
      if closed st then Some (unread st, {| unread := EmptyString; closed := true |})
      else None
  end.

(** What a queue holds. The worker only ever puts [str] lines; the consumer
    nevertheless tests the type of what it gets. *)
Inductive qitem : Type :=
  | QStr (line : string)
  | QOther.

Record StreamReader : Type := {
  q : list qitem;
  line_prefix : string
}.

(** [StreamReader.__worker]: for each line that [readline] returns before the
    empty string, put it in the queue. The thread stops at end of input; it
    waits (here: yields the state reached) when [readline] blocks. [fuel]
    bounds the number of reads. *)
Fixpoint worker (fuel : nat) (st : text_stream) (queue : list qitem)
  : list qitem * text_stream :=
  match fuel with
  | O => (queue, st)
  | S fuel' =>
      match readline st with
      | None => (queue, st)
      | Some (line, st') =>
          if String.eqb line EmptyString then (queue, st')
          else worker fuel' st' (queue ++ [QStr line])
      end
  end.

(** The worker run on what the stream holds now. *)
Definition run_worker (st : text_stream) (queue : list qitem) : list qitem * text_stream :=
  worker (S (String.length (unread st))) st queue.

(** [StreamReader.__read_line] with a silent producer: pop until the queue is
    empty, yielding each line stripped; stop at anything that is not a
    [str]. Returns the lines yielded and the queue left. *)
Fixpoint read_line_quiet (queue : list qitem) : list string * list qitem :=
  match queue with
  | [] => ([], [])
  | QStr line :: queue' =>
      let '(ys, remaining) := read_line_quiet queue' in (Py.rstrip line :: ys, remaining)
  | QOther :: queue' => ([], queue')
  end.

(** [StreamReader.__read_line] while the worker thread keeps running:
    [puts] lists, for each [get_nowait] in turn, the lines the worker put in
    the queue since the previous one; after the last entry the worker puts
    nothing more during the call. Returns the lines yielded, the queue left
    and the entries of [puts] not reached. *)
Fixpoint read_line (puts : list (list string)) (queue : list qitem)
  : list string * list qitem * list (list string) :=
  match puts with
  | [] => let '(ys, remaining) := read_line_quiet queue in (ys, remaining, [])
  | arrived :: puts' =>
      match queue ++ map QStr arrived with
      | [] => ([], [], puts')
      | QStr line :: queue' =>
          let '(ys, remaining, rest) := read_line puts' queue' in
          (Py.rstrip line :: ys, remaining, rest)
      | QOther :: queue' => ([], queue', puts')
      end
  end.

(** [StreamReader.read_lines]: every line yielded, tagged. The lines put
    after the call ended wait in the queue for the next one. *)
Definition read_lines (puts : list (list string)) (r : StreamReader)
  : list string * StreamReader :=
  let '(ys, remaining, rest) := read_line puts (q r) in
  (map (fun line => line_prefix r +:+ "> " +:+ line) ys,
   {| q := remaining ++ map QStr (concat rest); line_prefix := line_prefix r |}).

(** ** Monitor loop *)

(** What the program can change: the files, and the text it has written to
    its standard output and standard error. *)
Record world : Type := {
  fs : gmap string string;
  term_out : string;
  term_err : string
}.

(** [print(msg)]. *)
Definition print (msg : string) (w : world) : world :=
  {| fs := fs w; term_out := term_out w +:+ msg +:+ String Py.LF ""; term_err := term_err w |}.

(** Why [os.remove] may fail on a path other than the file being absent. *)
Inductive remove_fault : Type :=
  | PermissionDenied (msg : string)
  | RemoveFailed (msg : string).

(** [os.remove(file)]. *)
Definition os_remove (fault : option remove_fault) (file : string) (w : world)
  : raises world :=
  match fault with
  | Some (PermissionDenied m) => inl (PermissionError m)
  | Some (RemoveFailed m) => inl (OtherException m)
  | None =>
      match fs w !! file with
      | None => inl (FileNotFoundError "No such file or directory")
      | Some _ =>
          inr {| fs := delete file (fs w); term_out := term_out w; term_err := term_err w |}
      end
  end.

Definition try_remove_file (fault : option remove_fault) (file : string) (w : world)
  : bool * world :=
  match os_remove fault file w with
  | inr w' => (true, w')
  | inl (FileNotFoundError _) => (true, w)
  | inl (PermissionError _) =>
      (false, print ("Error: Permission denied: unable to rewrite '" +:+ file +:+ "'") w)
  | inl e =>
      (false, print ("Error: unable to rewrite '" +:+ file +:+ "': " +:+ str_of_exn e) w)
  end.

(** [with open(file, 'a') as f: f.writelines(lines); f.flush()]. *)
Definition append_file (fault : option exn) (file : string) (lines : list string) (w : world)
  : raises world :=
  match fault with
  | Some e => inl e
  | None =>
      inr {| fs := <[file := default "" (fs w !! file) +:+ String.concat "" lines]> (fs w);
             term_out := term_out w; term_err := term_err w |}
  end.

(** [sys.stdout.writelines(lines); sys.stdout.flush()]. *)
Definition write_stdout (lines : list string) (w : world) : world :=
  {| fs := fs w; term_out := term_out w +:+ String.concat "" lines; term_err := term_err w |}.

(** [time.sleep(interval)]. *)
Definition sleep (interval : Z) : raises unit :=
  if interval <? 0 then inl (ValueError "sleep length must be non-negative")
  else inr tt.

(** What the surroundings do during one turn of the loop: what [poll()]
    answers, the process table, the clock, the lines the two worker threads
    put in their queues, and whether the output file can be opened. *)
Record tick : Type := {
  poll : option Z;
  table : psutil;
  now : datetime;
  out_puts : list (list string);
  err_puts : list (list string);
  open_fault : option exn
}.

(** What the surroundings do during one run. *)
Record env : Type := {
  remove_fault_of : option remove_fault;
  popen : list string -> raises Z;
  attach_stdout : option exn;
  attach_stderr : option exn;
  ticks : list tick
}.

(** How a run ends: the function returns, [sys.exit(status)] is called, or
    an exception nobody catches leaves it. *)
Inductive outcome : Type :=
  | Returned
  | Exited (status : Z)
  | Uncaught (e : exn).

(** The state a run reached: ended, or still in the loop (with its two
    readers) when the recorded ticks ran out. *)
Inductive result : Type :=
  | Finished (o : outcome) (w : world)
  | Looping (stdout_reader stderr_reader : StreamReader) (w : world).

(** The exit status of the program. *)
Definition exit_status (o : outcome) : Z :=
  match o with
  | Returned => 0
  | Exited status => status
  | Uncaught _ => 1
  end.

(** The list the loop writes in one tick: the snapshot text, then what each
    reader returned, every element with a line feed appended. *)
Definition log_lines (txt : string) (out_lines err_lines : list string) : list string :=
  map (fun line => line +:+ String Py.LF "") ([txt] ++ out_lines ++ err_lines).

(** Where one turn of the loop leaves the run. *)
Inductive step : Type :=
  | Stop (o : outcome) (w : world)
  | Continue (stdout_reader stderr_reader : StreamReader) (w : world).

(** The body of the [while] loop, once [poll()] has answered [None]. *)
Definition loop_body (interval : Z) (output_file : string) (child : Z) (t : tick)
    (stdout_reader stderr_reader : StreamReader) (w : world) : step :=
  match get_process_tree_info (table t) child with
  | inl e =>
      Stop (Exited 1)
        (print ("Error: Cannot get process (pid=" +:+ Py.str_of_int child +:+
                ") info: " +:+ str_of_exn e) w)
  | inr None => Stop Returned w
  | inr (Some process_tree_info) =>
      match produce_txt (now t) process_tree_info with
      | inl e => Stop (Uncaught e) w
      | inr txt =>
          let '(out_lines, stdout_reader') := read_lines (out_puts t) stdout_reader in
          let '(err_lines, stderr_reader') := read_lines (err_puts t) stderr_reader in
          let lines := log_lines txt out_lines err_lines in
          match append_file (open_fault t) output_file lines w with
          | inl e => Stop (Uncaught e) w
          | inr w1 =>
              let w2 := write_stdout lines w1 in
              match sleep interval with
              | inl e => Stop (Uncaught e) w2
              | inr _ => Continue stdout_reader' stderr_reader' w2
              end
          end
      end
  end.

(** The [while process.poll() is None] loop, over the recorded ticks. *)
Fixpoint monitor_loop (interval : Z) (output_file : string) (child : Z)
    (ts : list tick) (stdout_reader stderr_reader : StreamReader) (w : world) : result :=
  match ts with
  | [] => Looping stdout_reader stderr_reader w
  | t :: ts' =>
      match poll t with
      | Some _ => Finished Returned w
      | None =>
          match loop_body interval output_file child t stdout_reader stderr_reader w with
          | Stop o w' => Finished o w'
          | Continue stdout_reader' stderr_reader' w' =>
              monitor_loop interval output_file child ts' stdout_reader' stderr_reader' w'
          end
      end
  end.

Definition new_reader (prefix : string) : StreamReader :=
  {| q := []; line_prefix := prefix |}.

Definition monitor_command (interval : Z) (output_file : string) (command : list string)
    (e : env) (w : world) : result :=
  match try_remove_file (remove_fault_of e) output_file w with
  | (false, w') => Finished (Exited 1) w'
  | (true, w') =>
      match popen e command with
      | inl ex =>
          Finished (Exited 1) (print ("Error: Cannot start process: " +:+ str_of_exn ex) w')
      | inr child =>
          match attach_stdout e, attach_stderr e with
          | Some ex, _ | None, Some ex =>
              Finished (Exited 1)
                (print ("Error: Cannot setup process stdout/stderr reader: " +:+ str_of_exn ex) w')
          | None, None =>
              monitor_loop interval output_file child (ticks e)
                (new_reader "stdout") (new_reader "stderr") w'
          end
      end
  end.

(** ** Vocabulary of the specification *)

Definition is_digit (c : ascii) : bool :=
  ((48 <=? Py.code c) && (Py.code c <=? 57))%N.

Fixpoint all_chars (P : ascii -> bool) (s : string) : bool :=
  match s with
  | EmptyString => true
  | String c s' => P c && all_chars P s'
  end.

(** The number a text of decimal digits denotes. *)
Definition digits_value (s : string) : option Z :=
  match s with
  | EmptyString => None
  | _ => option_map Z.of_uint (NilEmpty.uint_of_string s)
  end.

(** [s] shows [v] in exactly [width] decimal digits. *)
Definition field (width : nat) (v : Z) (s : string) : Prop :=
  String.length s = width /\ all_chars is_digit s = true /\ digits_value s = Some v.

(** A reading of the clock that [YYYY-MM-DD HH:MM:SS] can show. *)
Definition clock_reading (t : datetime) : Prop :=
  1000 <= year t <= 9999 /\ 1 <= month t <= 12 /\ 1 <= day t <= 31 /\
  0 <= hour t <= 23 /\ 0 <= minute t <= 59 /\ 0 <= second t <= 59.

(** [s] is [t] formatted [YYYY-MM-DD HH:MM:SS]. *)
Definition timestamp_text (t : datetime) (s : string) : Prop :=
  exists Y M D h m sec,
    s = Y +:+ "-" +:+ M +:+ "-" +:+ D +:+ " " +:+ h +:+ ":" +:+ m +:+ ":" +:+ sec /\
    field 4 (year t) Y /\ field 2 (month t) M /\ field 2 (day t) D /\
    field 2 (hour t) h /\ field 2 (minute t) m /\ field 2 (second t) sec.

(** [s] shows the float [n / 2^20] with three decimal places: a sign, the
    whole part, a point and three digits, the number shown being within
    half a thousandth of the float. *)
Definition mebibytes_text (n : Z) (s : string) : Prop :=
  exists whole frac w f,
    s = (if n <? 0 then "-" else "") +:+ whole +:+ "." +:+ frac /\
    all_chars is_digit whole = true /\ digits_value whole = Some w /\
    field 3 f frac /\
    Z.abs (2 ^ 20 * (1000 * w + f) - 1000 * Py.round_to_53_bits (Z.abs n)) <= 2 ^ 19.

Definition no_LF (s : string) : Prop := Py.contains_char Py.LF s = false.

(** The lines of a text: the pieces between line feeds. A last piece that no
    line feed ends counts when it is not empty. *)
Fixpoint lines_of (s : string) : list string :=
  match s with
  | EmptyString => []
  | String c s' =>
      if Ascii.eqb c Py.LF then EmptyString :: lines_of s'
      else match lines_of s' with
           | [] => [String c EmptyString]
           | l :: ls => String c l :: ls
           end
  end.

(** The lines of the record format. *)
Definition header_line (timestamp : string) (p : string) (m : string) : string :=
  "prob> [" +:+ timestamp +:+ "] pid=" +:+ p +:+ ", mem=" +:+ m +:+ "M :".

Definition child_line (timestamp : string) (p : string) (m : string) (command : string)
  : string :=
  "prob> [" +:+ timestamp +:+ "]   - pid=" +:+ p +:+ ", mem=" +:+ m +:+ "M, cmd=" +:+ command.

Definition tagged (tag text : string) : string := tag +:+ "> " +:+ text.

(** Every line of [lines] followed by a line feed, as one text. *)
Definition text_of_lines (lines : list string) : string :=
  String.concat "" (map (fun l => l +:+ String Py.LF "") lines).

(** [p] occurs somewhere in [s]. *)
Fixpoint occurs_in (p s : string) : bool :=
  String.prefix p s ||
  match s with
  | EmptyString => false
  | String _ s' => occurs_in p s'
  end.

(** A line terminator: line feed or carriage return. *)
Definition is_terminator (c : ascii) : bool :=
  Ascii.eqb c "010"%char || Ascii.eqb c "013"%char.

(** A text that holds no line terminator. *)
Definition terminator_free (s : string) : Prop :=
  all_chars (fun c => negb (is_terminator c)) s = true.

(** How a writer ends a line: with a line feed, with a carriage return and a
    line feed, or with a carriage return alone. *)
Inductive ending : Type :=
  | EndLF
  | EndCRLF
  | EndCR.

Definition ending_text (e : ending) : string :=
  match e with
  | EndLF => String Py.LF ""
  | EndCRLF => String Py.CR (String Py.LF "")
  | EndCR => String Py.CR ""
  end.

(** The text a writer produces for lines written one after the other, each
    with its ending. *)
Fixpoint written (lines : list (string * ending)) : string :=
  match lines with
  | [] => ""
  | (l, e) :: lines' => l +:+ ending_text e +:+ written lines'
  end.

(** A carriage return alone ends a line for certain once a character other
    than a line feed follows it, or once the stream is closed. *)
Definition cr_complete (final : bool) (rest : string) : Prop :=
  match rest with
  | EmptyString => final = true
  | String d _ => d <> Py.LF
  end.

(** Lines as a writer can have completed them: no terminator inside a line,
    and every carriage return that ends a line alone is known to. *)
Fixpoint well_ended (final : bool) (lines : list (string * ending)) : Prop :=
  match lines with
  | [] => True
  | (l, e) :: lines' =>
      terminator_free l /\
      (e = EndCR -> cr_complete final (written lines')) /\
      well_ended final lines'
  end.

(** The text of a stream as a reader with universal newlines sees it: every
    carriage return followed by a line feed, and every other carriage return,
    is a line feed. *)
Fixpoint translate_newlines (s : string) : string :=
  match s with
  | EmptyString => EmptyString
  | String c s' =>
      if Ascii.eqb c Py.CR then
        match s' with
        | EmptyString => String Py.LF EmptyString
        | String d s'' =>
            if Ascii.eqb d Py.LF then String Py.LF (translate_newlines s'')
            else String Py.LF (translate_newlines s')
        end
      else String c (translate_newlines s')
  end.

(** A text without its trailing characters of class [P]. *)
Fixpoint strip_trailing (P : ascii -> bool) (s : string) : string :=
  match s with
  | EmptyString => EmptyString
  | String c s' =>
      match strip_trailing P s' with
      | EmptyString => if P c then EmptyString else String c EmptyString
      | r => String c r
      end
  end.

(** The last character of a text. *)
Fixpoint last_char (s : string) : option ascii :=
  match s with
  | EmptyString => None
  | String c EmptyString => Some c
  | String _ s' => last_char s'
  end.

(** The descendants of an enumeration that can be fully inspected. *)
Definition fully_inspected (v : child_view) : bool :=
  match cv_memory_info v, cv_cmdline v with
  | inr _, inr _ => true
  | _, _ => false
  end.

(** The descendants the collector enumerated: none when the enumeration
    itself raised. *)
Definition enumerated_by (ps : psutil) (p : Z) : list child_view :=
  match pv_children (ps p) with
  | inl _ => []
  | inr vs => vs
  end.

(** The world of the result of a run. *)
Definition world_of (r : result) : world :=
  match r with
  | Finished _ w => w
  | Looping _ _ w => w
  end.

(** [field], decided. *)
Definition field_b (width : nat) (v : Z) (s : string) : bool :=
  Nat.eqb (String.length s) width && all_chars is_digit s &&
  match digits_value s with
  | Some v' => v' =? v
  | None => false
  end.

(** A digit or a minus sign: the characters of a rendered [int]. *)
Definition is_int_char (c : ascii) : bool :=
  is_digit c || Ascii.eqb c "-"%char.

(** The record line of one child, its memory shown as [m]. *)
Definition child_line_of (timestamp : string) (c : ProcessInfo) (m : string) : string :=
  child_line timestamp (Py.str_of_int (pid c)) m (Py.str_of_list (cmd c)).

(** The world one turn of the loop leaves. *)
Definition world_after (st : step) : world :=
  match st with
  | Stop _ w => w
  | Continue _ _ w => w
  end.

(** The tagged lines of one tick: what the stdout reader returns, then what
    the stderr reader returns. *)
Definition tagged_lines_of_tick (t : tick) (stdout_reader stderr_reader : StreamReader)
  : list string :=
  (read_lines (out_puts t) stdout_reader).1 ++ (read_lines (err_puts t) stderr_reader).1.

(** A run fails at startup: the output file cannot be cleared, the child
    cannot be launched, or a reader cannot be attached. *)
Definition startup_fails (e : env) (output_file : string) (command : list string)
    (w : world) : Prop :=
  (try_remove_file (remove_fault_of e) output_file w).1 = false \/
  (exists ex, popen e command = inl ex) \/
  is_Some (attach_stdout e) \/ is_Some (attach_stderr e).

(** ** Readings of the specification that the program does not follow *)

(** Every tagged line of a tick carries the tick's timestamp. *)
Definition tagged_lines_timestamped : Prop :=
  forall (t : tick) (stdout_reader stderr_reader : StreamReader),
    Forall (fun line => occurs_in (strftime (now t)) line = true)
      (tagged_lines_of_tick t stdout_reader stderr_reader).

(** Draining returns every written line less its trailing line terminators
    and nothing else. *)
Definition strips_only_terminators : Prop :=
  forall (lines : list string) (b : bool) (prefix : string),
    Forall terminator_free lines ->
    (read_lines []
       {| q := (run_worker {| unread := text_of_lines lines; closed := b |} []).1;
          line_prefix := prefix |}).1 =
    map (fun l => tagged prefix (strip_trailing is_terminator (l +:+ String Py.LF ""))) lines.

(** Every startup failure ends the run with status 1 and a message on
    standard error. *)
Definition failures_reported_on_stderr : Prop :=
  forall interval output_file command e w,
    startup_fails e output_file command w ->
    exists msg w',
      monitor_command interval output_file command e w = Finished (Exited 1) w' /\
      msg <> "" /\ term_err w' = term_err w +:+ msg.

(** ** A sample run *)

Definition sample_now : datetime :=
  {| year := 2024; month := 3; day := 7; hour := 9; minute := 5; second := 0;
     microsecond := 120034 |}.

(** The same second, some microseconds later. *)
Definition sample_later : datetime :=
  {| year := 2024; month := 3; day := 7; hour := 9; minute := 5; second := 0;
     microsecond := 730311 |}.

(** A child with two descendants, the second of which exits while it is
    being inspected. *)
Definition sample_table : psutil :=
  fun _ =>
    {| pv_lookup := None;
       pv_memory_info := inr 3145728;
       pv_children :=
         inr [ {| cv_pid := 11; cv_memory_info := inr 65536;
                  cv_cmdline := inr ["sleep"; "2"] |};
               {| cv_pid := 12; cv_memory_info := inr 4096;
                  cv_cmdline := inl (NoSuchProcess "process no longer exists") |} ] |}.

(** The process table once the child is gone. *)
Definition gone_table : psutil :=
  fun _ =>
    {| pv_lookup := Some (NoSuchProcess "process no longer exists");
       pv_memory_info := inl (NoSuchProcess "process no longer exists");
       pv_children := inl (NoSuchProcess "process no longer exists") |}.

(** A process table that cannot be read. *)
Definition denied_table : psutil :=
  fun _ =>
    {| pv_lookup := None;
       pv_memory_info := inl (OtherException "access denied");
       pv_children := inr [] |}.

Definition sample_snapshot : ProcessTreeInfo :=
  {| pi := {| pid := 10; mem := 3145728; cmd := [] |};
     children := [ {| pid := 11; mem := 65536; cmd := ["sleep"; "2"] |} ] |}.

(** A tick during which the child wrote [hello], two spaces and a line feed
    on its standard output, and [oops] and a line feed on its standard
    error. *)
Definition sample_tick : tick :=
  {| poll := None; table := sample_table; now := sample_now;
     out_puts := [["hello  " +:+ String Py.LF ""]];
     err_puts := [["oops" +:+ String Py.LF ""]];
     open_fault := None |}.

Definition last_tick : tick :=
  {| poll := Some 0; table := gone_table; now := sample_later;
     out_puts := []; err_puts := []; open_fault := None |}.

Definition gone_tick : tick :=
  {| poll := None; table := gone_table; now := sample_later;
     out_puts := []; err_puts := []; open_fault := None |}.

Definition denied_tick : tick :=
  {| poll := None; table := denied_table; now := sample_later;
     out_puts := []; err_puts := []; open_fault := None |}.

Definition sample_env (ts : list tick) : env :=
  {| remove_fault_of := None; popen := fun _ => inr 10;
     attach_stdout := None; attach_stderr := None; ticks := ts |}.

(** The command cannot be launched. *)
Definition no_such_command_env : env :=
  {| remove_fault_of := None;
     popen := fun _ => inl (FileNotFoundError "No such file or directory: 'nope'");
     attach_stdout := None; attach_stderr := None; ticks := [] |}.

(** A world where the output file holds the log of an earlier run. *)
Definition sample_world : world :=
  {| fs := {[ "mem.log" := "stale" ]}; term_out := ""; term_err := "" |}.

(** The snapshot text of the sample tick. *)
Definition sample_txt : string :=
  text_of_lines
    [ "prob> [2024-03-07 09:05:00] pid=10, mem=3.000M :";
      "prob> [2024-03-07 09:05:00]   - pid=11, mem=0.062M, cmd=['sleep', '2']" ].

(** ** Further vocabulary *)

(** A character that [repr] shows as it is: printable, and neither a quote
    nor a backslash. *)
Definition plain_char (c : ascii) : bool :=
  Py.isprintable c && negb (Ascii.eqb c "'"%char) && negb (Ascii.eqb c Py.DQUOTE) &&
  negb (Ascii.eqb c "\"%char).



(** * Properties *)

#[local] Arguments Ascii.eqb : simpl never.
#[local] Arguments Py.isspace : simpl never.

(** ** The collector *)

Section Collector.

Implicit Types (v : child_view) (c : ProcessInfo) (ps : psutil).

Lemma inspect_child_Some v c :
  inspect_child v = Some c <->
  cv_pid v = pid c /\ cv_memory_info v = inr (mem c) /\ cv_cmdline v = inr (cmd c).
Proof.
  unfold inspect_child. destruct c as [p m l]; simpl.
  destruct (cv_memory_info v) as [e|rss], (cv_cmdline v) as [e'|cmdline];
    split; try (intros [= <- <- <-]; auto); intros (? & ? & ?); congruence.
Qed.

Lemma inspect_child_fully_inspected v :
  is_Some (inspect_child v) <-> fully_inspected v = true.
Proof.
  unfold inspect_child, fully_inspected.
  destruct (cv_memory_info v), (cv_cmdline v); split; intros H;
    try reflexivity; try discriminate; try (destruct H; discriminate); eauto.
Qed.

(** The loop keeps, in order, what [inspect_child] builds. *)
Lemma collect_children_omap enumerated acc :
  collect_children enumerated acc = acc ++ omap inspect_child enumerated.
Proof.
  revert acc. induction enumerated as [|v vs IH]; intros acc; simpl.
  - now rewrite app_nil_r.
  - destruct (inspect_child v) as [c|]; rewrite IH; [|reflexivity].
    now rewrite <- app_assoc.
Qed.

Lemma omap_inspect_child_filter enumerated :
  Forall2 (fun v c => cv_pid v = pid c /\ cv_memory_info v = inr (mem c) /\
                      cv_cmdline v = inr (cmd c))
    (List.filter fully_inspected enumerated) (omap inspect_child enumerated).
Proof.
  induction enumerated as [|v vs IH]; simpl; [constructor|].
  destruct (inspect_child v) as [c|] eqn:E.
  - assert (fully_inspected v = true) as ->
      by (apply inspect_child_fully_inspected; rewrite E; eauto).
    constructor; [now apply inspect_child_Some | exact IH].
  - destruct (fully_inspected v) eqn:F; [|exact IH].
    apply inspect_child_fully_inspected in F. rewrite E in F.
    now destruct F.
Qed.

Lemma get_process_tree_info_Some ps p snap :
  get_process_tree_info ps p = inr (Some snap) <->
  exists rss, root_memory (ps p) = inr rss /\
    snap = {| pi := {| pid := p; mem := rss; cmd := [] |};
              children := omap inspect_child (enumerated_by ps p) |}.
Proof.
  unfold get_process_tree_info, enumerated_by.
  destruct (root_memory (ps p)) as [e|rss].
  - split; [destruct (is_NoSuchProcess e); intros [=] | intros (? & [=] & _)].
  - destruct (pv_children (ps p)) as [e|vs]; simpl;
      rewrite ?collect_children_omap; simpl;
      (split; [intros [= <-]; eauto | intros (? & [= <-] & ->); reflexivity]).
Qed.

End Collector.

(** C1. Every entry of a snapshot's [children] is a descendant whose memory
    and command line were both read, with exactly the values read: the
    entries are, in enumeration order, the fully inspected descendants, so a
    descendant whose inspection fails contributes nothing. And once the root
    has been looked up and measured, the snapshot is returned whatever the
    descendants answer. *)
Theorem snapshot_children_fully_inspected (ps : psutil) (p : Z) :
  (forall rss, root_memory (ps p) = inr rss ->
     exists snap, get_process_tree_info ps p = inr (Some snap)) /\
  (forall snap, get_process_tree_info ps p = inr (Some snap) ->
     Forall2 (fun v c => cv_pid v = pid c /\ cv_memory_info v = inr (mem c) /\
                         cv_cmdline v = inr (cmd c))
       (List.filter fully_inspected (enumerated_by ps p)) (children snap)).
Proof.
  split.
  - intros rss Hroot. eexists. apply get_process_tree_info_Some. eauto.
  - intros snap (rss & _ & ->)%get_process_tree_info_Some. simpl.
    apply omap_inspect_child_filter.
Qed.

(** C2. The collector answers [None] exactly when the lookup of the root
    (finding the process and reading its memory) reports that there is no
    such process; any other exception of that lookup reaches the caller
    unchanged, and no other exception ever does. *)
Theorem not_found_iff_no_such_process (ps : psutil) (p : Z) :
  (get_process_tree_info ps p = inr None <->
     exists msg, root_memory (ps p) = inl (NoSuchProcess msg)) /\
  (forall msg, pv_lookup (ps p) = Some (NoSuchProcess msg) ->
     get_process_tree_info ps p = inr None) /\
  (forall e, get_process_tree_info ps p = inl e <->
     root_memory (ps p) = inl e /\ is_NoSuchProcess e = false).
Proof.
  assert (Hlookup : forall e, pv_lookup (ps p) = Some e -> root_memory (ps p) = inl e)
    by (unfold root_memory; intros e ->; reflexivity).
  unfold get_process_tree_info.
  destruct (root_memory (ps p)) as [e0|rss].
  - split; [|split].
    + destruct e0; simpl; split; intros H; try discriminate; eauto;
        destruct H as [? [=]].
    + intros msg [= ->]%Hlookup. reflexivity.
    + intros e. split.
      * destruct e0; simpl; intros [= <-]; auto.
      * intros [[= <-] H]. now rewrite H.
  - destruct (pv_children (ps p)) as [e1|vs]; cbv zeta; (split; [|split]).
    1, 4: split; [discriminate | intros [? [=]]].
    1, 3: intros msg [=]%Hlookup.
    all: intros e2; split; [discriminate | intros [[=] _]].
Qed.

(** C9. A snapshot's root entry carries the pid that was asked for, the
    memory that was read, and an empty command line. *)
Theorem snapshot_root_fields (ps : psutil) (p : Z) (snap : ProcessTreeInfo) :
  get_process_tree_info ps p = inr (Some snap) ->
  pid (pi snap) = p /\ cmd (pi snap) = [] /\
  root_memory (ps p) = inr (mem (pi snap)).
Proof.
  intros (rss & Hroot & ->)%get_process_tree_info_Some. simpl. auto.
Qed.

(** ** Texts *)

Section Text.

Implicit Types (s t u : string) (c : ascii).

Lemma append_nil_l s : "" +:+ s = s.
Proof. reflexivity. Qed.

Lemma append_cons c s t : String c s +:+ t = String c (s +:+ t).
Proof. reflexivity. Qed.

Lemma append_nil_r s : s +:+ "" = s.
Proof. induction s as [|c s IH]; [reflexivity|]. now rewrite append_cons, IH. Qed.

Lemma append_assoc s t u : (s +:+ t) +:+ u = s +:+ (t +:+ u).
Proof. induction s as [|c s IH]; [reflexivity|]. now rewrite !append_cons, IH. Qed.

Lemma length_append s t :
  String.length (s +:+ t) = (String.length s + String.length t)%nat.
Proof.
  induction s as [|c s IH]; [reflexivity|].
  rewrite append_cons. simpl. now rewrite IH.
Qed.

Lemma contains_char_append c s t :
  Py.contains_char c (s +:+ t) = Py.contains_char c s || Py.contains_char c t.
Proof.
  induction s as [|d s IH]; [reflexivity|].
  rewrite append_cons. simpl. rewrite IH. now rewrite orb_assoc.
Qed.

Lemma all_chars_append P s t :
  all_chars P (s +:+ t) = all_chars P s && all_chars P t.
Proof.
  induction s as [|d s IH]; [reflexivity|].
  rewrite append_cons. simpl. rewrite IH. now rewrite andb_assoc.
Qed.

Lemma no_LF_append s t : no_LF s -> no_LF t -> no_LF (s +:+ t).
Proof. unfold no_LF. intros Hs Ht. now rewrite contains_char_append, Hs, Ht. Qed.

Lemma no_LF_append_inv s t : no_LF (s +:+ t) -> no_LF s /\ no_LF t.
Proof. unfold no_LF. rewrite contains_char_append. apply orb_false_elim. Qed.

Lemma all_chars_no_LF P s : P Py.LF = false -> all_chars P s = true -> no_LF s.
Proof.
  intros HP. unfold no_LF. induction s as [|c s IH]; simpl; [reflexivity|].
  intros [Hc Hs]%andb_prop. rewrite (IH Hs), orb_false_r.
  destruct (Ascii.eqb_spec Py.LF c) as [<-|]; [congruence | reflexivity].
Qed.

(** The first line of a text is what precedes its first line feed. *)
Lemma lines_of_line s t :
  no_LF s -> lines_of (s +:+ String Py.LF t) = s :: lines_of t.
Proof.
  unfold no_LF. induction s as [|c s IH]; intros Hs.
  - reflexivity.
  - simpl in Hs. apply orb_false_elim in Hs as [Hc Hs].
    rewrite append_cons. simpl. rewrite Ascii.eqb_sym, Hc.
    now rewrite (IH Hs).
Qed.

Lemma concat_cons s (ls : list string) :
  String.concat "" (s :: ls) = s +:+ String.concat "" ls.
Proof. destruct ls; simpl; [now rewrite append_nil_r | reflexivity]. Qed.

Lemma concat_app (ls ls' : list string) :
  String.concat "" (ls ++ ls') = String.concat "" ls +:+ String.concat "" ls'.
Proof.
  induction ls as [|s ls IH]; [reflexivity|].
  rewrite <- app_comm_cons, !concat_cons, IH. now rewrite append_assoc.
Qed.

Lemma text_of_lines_cons s ls :
  text_of_lines (s :: ls) = s +:+ String Py.LF (text_of_lines ls).
Proof.
  unfold text_of_lines. rewrite map_cons, concat_cons, append_assoc. reflexivity.
Qed.

Lemma text_of_lines_app ls ls' :
  text_of_lines (ls ++ ls') = text_of_lines ls +:+ text_of_lines ls'.
Proof.
  induction ls as [|s ls IH]; [reflexivity|].
  rewrite <- app_comm_cons, !text_of_lines_cons, IH.
  now rewrite append_assoc, append_cons.
Qed.

(** A text made of lines reads back as those lines. *)
Lemma lines_of_text_of_lines ls t :
  Forall no_LF ls -> lines_of (text_of_lines ls +:+ t) = ls ++ lines_of t.
Proof.
  induction 1 as [|s ls Hs _ IH]; [reflexivity|].
  rewrite text_of_lines_cons, append_assoc, append_cons.
  rewrite lines_of_line by exact Hs. now rewrite IH.
Qed.

Lemma concat_empty_sep (ls : list string) :
  String.concat "" (map (fun l => l +:+ String Py.LF "") ls) = text_of_lines ls.
Proof. reflexivity. Qed.

End Text.


(** ** Numbers as text *)

Section Numbers.

Implicit Types (n v : Z) (s : string).

Lemma string_of_uint_digits u :
  all_chars is_digit (NilEmpty.string_of_uint u) = true.
Proof.
  induction u; cbn [NilEmpty.string_of_uint all_chars]; rewrite ?IHu; reflexivity.
Qed.

Lemma NilZero_string_of_uint_digits u :
  all_chars is_digit (NilZero.string_of_uint u) = true.
Proof. destruct u; try reflexivity; apply string_of_uint_digits. Qed.

Lemma str_of_int_digits n : 0 <= n -> all_chars is_digit (Py.str_of_int n) = true.
Proof.
  destruct n as [|p|p]; [reflexivity | | lia]. intros _.
  apply NilZero_string_of_uint_digits.
Qed.

Lemma all_chars_impl (P Q : ascii -> bool) s :
  (forall c, P c = true -> Q c = true) -> all_chars P s = true -> all_chars Q s = true.
Proof.
  intros HPQ. induction s as [|c s IH]; simpl; [reflexivity|].
  intros [Hc Hs]%andb_prop. now rewrite (HPQ c Hc), IH.
Qed.

Lemma str_of_int_chars n : all_chars is_int_char (Py.str_of_int n) = true.
Proof.
  assert (Hd : forall u, all_chars is_int_char (NilZero.string_of_uint u) = true).
  { intros u. apply all_chars_impl with (P := is_digit).
    - intros c Hc. unfold is_int_char. now rewrite Hc.
    - apply NilZero_string_of_uint_digits. }
  destruct n as [|p|p]; [reflexivity | apply Hd |].
  unfold Py.str_of_int. cbn [Z.to_int NilZero.string_of_int all_chars].
  now rewrite Hd.
Qed.

Lemma str_of_int_no_LF n : no_LF (Py.str_of_int n).
Proof. apply all_chars_no_LF with (P := is_int_char); [reflexivity | apply str_of_int_chars]. Qed.

Lemma str_of_int_value n : 0 <= n -> digits_value (Py.str_of_int n) = Some n.
Proof.
  destruct n as [|p|p]; [reflexivity | | lia]. intros _.
  unfold Py.str_of_int. cbn [Z.to_int NilZero.string_of_int].
  pose proof (Unsigned.to_uint_nonnil p) as Hnil.
  pose proof (Unsigned.of_to p) as Hp.
  pose proof (NilEmpty.usu (Pos.to_uint p)) as Husu.
  destruct (Pos.to_uint p) as [|d|d|d|d|d|d|d|d|d|d] eqn:E; [congruence|..];
    unfold digits_value; cbn [NilZero.string_of_uint NilEmpty.string_of_uint];
    cbn [NilEmpty.string_of_uint] in Husu; rewrite Husu;
    cbn [option_map]; unfold Z.of_uint; rewrite Hp; reflexivity.
Qed.

Lemma repeat_char_chars P c k : P c = true -> all_chars P (Py.repeat_char c k) = true.
Proof. intros Hc. induction k; simpl; [reflexivity|]. now rewrite Hc, IHk. Qed.

Lemma zero_pad_chars width n : all_chars is_int_char (Py.zero_pad width n) = true.
Proof.
  unfold Py.zero_pad. rewrite all_chars_append, str_of_int_chars, andb_true_r.
  now apply repeat_char_chars.
Qed.

Lemma zero_pad_no_LF width n : no_LF (Py.zero_pad width n).
Proof. apply all_chars_no_LF with (P := is_int_char); [reflexivity | apply zero_pad_chars]. Qed.

Lemma field_b_field width v s : field_b width v s = true -> field width v s.
Proof.
  unfold field_b, field. intros [[Hl Hd]%andb_prop Hv]%andb_prop.
  apply Nat.eqb_eq in Hl. repeat split; [exact Hl | exact Hd |].
  destruct (digits_value s) as [v'|]; [|discriminate].
  apply Z.eqb_eq in Hv. now subst.
Qed.

(** Below [bound], checked one number at a time. *)
Lemma zero_pad_field_below width (bound : Z) :
  forallb (fun k => field_b width (Z.of_nat k) (Py.zero_pad width (Z.of_nat k)))
    (seq 0 (Z.to_nat bound)) = true ->
  forall n, 0 <= n < bound -> field width n (Py.zero_pad width n).
Proof.
  intros Hall n Hn. apply field_b_field.
  rewrite List.forallb_forall in Hall.
  specialize (Hall (Z.to_nat n)). rewrite Z2Nat.id in Hall by lia.
  apply Hall, in_seq. lia.
Qed.

Lemma zero_pad_2_field n : 0 <= n < 100 -> field 2 n (Py.zero_pad 2 n).
Proof. apply (zero_pad_field_below 2 100). vm_compute. reflexivity. Qed.

Lemma zero_pad_3_field n : 0 <= n < 1000 -> field 3 n (Py.zero_pad 3 n).
Proof. apply (zero_pad_field_below 3 1000). vm_compute. reflexivity. Qed.

Lemma zero_pad_4_field n : 0 <= n < 10000 -> field 4 n (Py.zero_pad 4 n).
Proof. apply (zero_pad_field_below 4 10000). vm_compute. reflexivity. Qed.

End Numbers.

(** ** Rounding *)

Section Rounding.

Implicit Types (a b n m : Z).

Lemma round_half_even_close a b :
  0 < b -> Z.abs (2 * (b * Py.round_half_even a b - a)) <= b.
Proof.
  intros Hb. unfold Py.round_half_even.
  pose proof (Z.div_mod a b ltac:(lia)) as Hdiv.
  pose proof (Z.mod_pos_bound a b Hb) as Hmod.
  generalize dependent (a mod b). generalize dependent (a / b). intros q r Hdiv Hmod.
  destruct (Z.ltb_spec (2 * r) b); [lia|].
  destruct (Z.ltb_spec b (2 * r)); [lia|].
  destruct (Z.even q); lia.
Qed.

Lemma round_half_even_nonneg a b : 0 <= a -> 0 < b -> 0 <= Py.round_half_even a b.
Proof.
  intros Ha Hb. unfold Py.round_half_even.
  pose proof (Z.div_pos a b Ha Hb).
  destruct (_ <? _); [lia|]. destruct (_ <? _); [lia|]. destruct (Z.even _); lia.
Qed.

Lemma round_to_53_bits_nonneg n : 0 <= n -> 0 <= Py.round_to_53_bits n.
Proof.
  intros Hn. unfold Py.round_to_53_bits.
  destruct (Z.leb_spec (Z.log2 n - 52) 0) as [|Hk]; [exact Hn|].
  assert (0 < 2 ^ (Z.log2 n - 52)) by (apply Z.pow_pos_nonneg; lia).
  pose proof (round_half_even_nonneg n (2 ^ (Z.log2 n - 52)) Hn ltac:(lia)). nia.
Qed.

(** An integer below [2^53] is a float: the division by [2^20] is exact. *)
Lemma round_to_53_bits_exact n : 0 <= n < 2 ^ 53 -> Py.round_to_53_bits n = n.
Proof.
  intros [Hn Hlt]. unfold Py.round_to_53_bits.
  assert (Z.log2 n < 53) as Hlog.
  { destruct (Z.eq_dec n 0) as [->|]; [reflexivity|].
    apply Z.log2_lt_pow2; lia. }
  destruct (Z.leb_spec (Z.log2 n - 52) 0); [reflexivity | lia].
Qed.

Lemma thousandths_close m :
  Z.abs (2 ^ 20 * Py.thousandths m - 1000 * m) <= 2 ^ 19.
Proof.
  unfold Py.thousandths.
  pose proof (round_half_even_close (1000 * m) (2 ^ 20) ltac:(lia)). lia.
Qed.

Lemma format_mib_Some n s :
  Py.format_mib n = Some s ->
  s = (if n <? 0 then "-" else "") +:+
      Py.fixed3 (Py.thousandths (Py.round_to_53_bits (Z.abs n))).
Proof.
  unfold Py.format_mib, Py.true_div_mib.
  destruct (_ <? 2 ^ 1044); [|discriminate]. now intros [= <-].
Qed.

Lemma format_mib_text n s : Py.format_mib n = Some s -> mebibytes_text n s.
Proof.
  intros ->%format_mib_Some.
  set (t := Py.thousandths (Py.round_to_53_bits (Z.abs n))).
  assert (0 <= t) as Ht.
  { apply round_half_even_nonneg; [|lia].
    pose proof (round_to_53_bits_nonneg (Z.abs n) ltac:(lia)). lia. }
  exists (Py.str_of_int (t / 1000)), (Py.zero_pad 3 (t mod 1000)), (t / 1000), (t mod 1000).
  assert (0 <= t / 1000) by (apply Z.div_pos; lia).
  pose proof (Z.mod_pos_bound t 1000 ltac:(lia)).
  repeat split.
  - now apply str_of_int_digits.
  - now apply str_of_int_value.
  - now apply zero_pad_3_field.
  - now apply zero_pad_3_field.
  - now apply zero_pad_3_field.
  - rewrite <- (Z.div_mod t 1000) by lia. apply thousandths_close.
Qed.

(** Every realistic amount of memory can be shown. *)
Lemma format_mib_total n : Z.abs n < 2 ^ 53 -> is_Some (Py.format_mib n).
Proof.
  intros Hn. unfold Py.format_mib, Py.true_div_mib.
  rewrite round_to_53_bits_exact by lia.
  destruct (Z.ltb_spec (Z.abs n) (2 ^ 1044)) as [|Hge]; [eauto|].
  assert (2 ^ 53 <= 2 ^ 1044) by (apply Z.pow_le_mono_r; lia). lia.
Qed.

Lemma fixed3_no_LF t : no_LF (Py.fixed3 t).
Proof.
  unfold Py.fixed3. apply no_LF_append; [apply str_of_int_no_LF|].
  apply no_LF_append; [reflexivity | apply zero_pad_no_LF].
Qed.

Lemma format_mib_no_LF n s : Py.format_mib n = Some s -> no_LF s.
Proof.
  intros ->%format_mib_Some.
  apply no_LF_append; [destruct (n <? 0); reflexivity | apply fixed3_no_LF].
Qed.

End Rounding.

(** ** Timestamps and command lines *)

Section Rendering.

Implicit Types (t : datetime) (s : string) (l : list string).

Lemma strftime_text t : clock_reading t -> timestamp_text t (strftime t).
Proof.
  intros (HY & HM & HD & Hh & Hm & Hs).
  exists (Py.zero_pad 4 (year t)), (Py.zero_pad 2 (month t)), (Py.zero_pad 2 (day t)),
    (Py.zero_pad 2 (hour t)), (Py.zero_pad 2 (minute t)), (Py.zero_pad 2 (second t)).
  split; [reflexivity|].
  repeat split; first [apply zero_pad_4_field | apply zero_pad_2_field]; lia.
Qed.

Lemma strftime_no_LF t : no_LF (strftime t).
Proof.
  unfold strftime.
  repeat (apply no_LF_append; [first [apply zero_pad_no_LF | reflexivity]|]).
  apply zero_pad_no_LF.
Qed.

(** The timestamp is nineteen characters long. *)
Lemma timestamp_text_length t s : timestamp_text t s -> String.length s = 19%nat.
Proof.
  intros (Y & M & D & h & m & sec & -> & (HY & _) & (HM & _) & (HD & _)
          & (Hh & _) & (Hm & _) & (Hs & _)).
  rewrite !length_append, HY, HM, HD, Hh, Hm, Hs. reflexivity.
Qed.

(** [repr] escapes line feeds: whatever the text, its [repr] is one line. *)
Lemma repr_char_no_LF quote c :
  quote = "'"%char \/ quote = Py.DQUOTE -> no_LF (Py.repr_char quote c).
Proof.
  intros [-> | ->]; destruct c as [[] [] [] [] [] [] [] []]; reflexivity.
Qed.

Lemma repr_quote_cases s :
  Py.repr_quote s = "'"%char \/ Py.repr_quote s = Py.DQUOTE.
Proof. unfold Py.repr_quote. destruct (_ && _); auto. Qed.

Lemma repr_body_no_LF quote s :
  quote = "'"%char \/ quote = Py.DQUOTE -> no_LF (Py.repr_body quote s).
Proof.
  intros Hq. induction s as [|c s IH]; [reflexivity|].
  cbn [Py.repr_body]. apply no_LF_append; [now apply repr_char_no_LF | exact IH].
Qed.

Lemma repr_str_no_LF s : no_LF (Py.repr_str s).
Proof.
  unfold Py.repr_str.
  pose proof (repr_quote_cases s) as Hq.
  change (no_LF (String (Py.repr_quote s) "" +:+
                 (Py.repr_body (Py.repr_quote s) s +:+ String (Py.repr_quote s) ""))).
  assert (no_LF (String (Py.repr_quote s) "")) by (destruct Hq as [-> | ->]; reflexivity).
  apply no_LF_append; [assumption|].
  apply no_LF_append; [now apply repr_body_no_LF | assumption].
Qed.

Lemma join_no_LF sep l : no_LF sep -> Forall no_LF l -> no_LF (Py.join sep l).
Proof.
  intros Hsep. induction 1 as [|s l Hs Hl IH]; [reflexivity|].
  destruct l as [|s' l]; [exact Hs|].
  change (no_LF (s +:+ sep +:+ Py.join sep (s' :: l))).
  repeat apply no_LF_append; assumption.
Qed.

Lemma str_of_list_no_LF l : no_LF (Py.str_of_list l).
Proof.
  unfold Py.str_of_list.
  apply no_LF_append; [reflexivity|]. apply no_LF_append; [|reflexivity].
  apply join_no_LF; [reflexivity|].
  apply Forall_forall. intros s (s' & -> & _)%list_elem_of_fmap. apply repr_str_no_LF.
Qed.

Lemma header_line_no_LF timestamp p m :
  no_LF timestamp -> no_LF p -> no_LF m -> no_LF (header_line timestamp p m).
Proof.
  intros Ht Hp Hm. unfold header_line.
  repeat (apply no_LF_append; [first [assumption | reflexivity]|]). reflexivity.
Qed.

Lemma child_line_no_LF timestamp p m command :
  no_LF timestamp -> no_LF p -> no_LF m -> no_LF command ->
  no_LF (child_line timestamp p m command).
Proof.
  intros Ht Hp Hm Hc. unfold child_line.
  repeat (apply no_LF_append; [first [assumption | reflexivity]|]). assumption.
Qed.

End Rendering.

(** ** The formatter *)

Section Formatter.

Implicit Types (c : ProcessInfo) (pt : ProcessTreeInfo) (now : datetime).

Lemma mib_inr n m : mib n = inr m <-> Py.format_mib n = Some m.
Proof. unfold mib. destruct (Py.format_mib n); split; congruence. Qed.

Lemma format_mibs_unique (cs : list ProcessInfo) (ms ms' : list string) :
  Forall2 (fun c m => Py.format_mib (mem c) = Some m) cs ms ->
  Forall2 (fun c m => Py.format_mib (mem c) = Some m) cs ms' ->
  ms = ms'.
Proof.
  intros H. revert ms'. induction H as [|c m cs ms Hm _ IH]; intros ms' H'.
  - now inversion H'.
  - inversion H' as [|? m' ? ms'' Hm' Hms'']; subst.
    f_equal; [congruence | now apply IH].
Qed.

Lemma child_txt_inr timestamp c txt :
  child_txt timestamp c = inr txt <->
  exists m, Py.format_mib (mem c) = Some m /\
            txt = child_line_of timestamp c m +:+ String Py.LF "".
Proof.
  unfold child_txt, bind_raises, child_line_of, child_line.
  destruct (mib (mem c)) as [e|m] eqn:E.
  - split; [discriminate|]. intros (m & Hm%mib_inr & _). congruence.
  - apply mib_inr in E. split.
    + intros [= <-]. exists m. split; [exact E|]. now rewrite !append_assoc.
    + intros (m' & Hm & ->). rewrite E in Hm. injection Hm as <-.
      now rewrite !append_assoc.
Qed.

Lemma children_txt_inr timestamp cs txt :
  children_txt timestamp cs = inr txt <->
  exists ms, Forall2 (fun c m => Py.format_mib (mem c) = Some m) cs ms /\
             txt = text_of_lines (zip_with (child_line_of timestamp) cs ms).
Proof.
  revert txt. induction cs as [|c cs IH]; intros txt; cbn [children_txt].
  - split.
    + intros [= <-]. exists []. split; [constructor | reflexivity].
    + intros (ms & Hms & ->). inversion Hms; subst. reflexivity.
  - unfold bind_raises at 1. destruct (child_txt timestamp c) as [e|line] eqn:Ec.
    + split; [discriminate|]. intros (ms & Hms & _).
      inversion Hms as [|? m ? ms' Hm _]; subst.
      assert (child_txt timestamp c = inr (child_line_of timestamp c m +:+ String Py.LF ""))
        by (apply child_txt_inr; eauto). congruence.
    + apply child_txt_inr in Ec as (m & Hm & ->).
      unfold bind_raises. destruct (children_txt timestamp cs) as [e|rest] eqn:Er.
      * split; [discriminate|]. intros (ms & Hms & _).
        inversion Hms as [|? m' ? ms' _ Hms']; subst.
        assert (inl e = inr (text_of_lines (zip_with (child_line_of timestamp) cs ms')))
          by (apply IH; eauto). discriminate.
      * destruct (proj1 (IH rest) eq_refl) as (ms & Hms & ->). split.
        -- intros [= <-]. exists (m :: ms). split; [now constructor|].
           cbn [zip_with]. rewrite text_of_lines_cons, append_assoc. reflexivity.
        -- intros (ms' & Hms' & ->).
           inversion Hms' as [|? m' ? ms'' Hm' Hms'']; subst.
           rewrite Hm in Hm'. injection Hm' as <-.
           assert (inr (text_of_lines (zip_with (child_line_of timestamp) cs ms)) =
                   (inr (text_of_lines (zip_with (child_line_of timestamp) cs ms''))
                    : raises string)) as [= ->] by (apply IH; eauto).
           cbn [zip_with]. rewrite text_of_lines_cons, append_assoc. reflexivity.
Qed.

(** The snapshot text is the header line and one line for each child, every
    one of them ended by a line feed. *)
Lemma produce_txt_inr now pt txt :
  produce_txt now pt = inr txt <->
  exists m ms,
    Py.format_mib (mem (pi pt)) = Some m /\
    Forall2 (fun c m' => Py.format_mib (mem c) = Some m') (children pt) ms /\
    txt = text_of_lines
            (header_line (strftime now) (Py.str_of_int (pid (pi pt))) m ::
             zip_with (child_line_of (strftime now)) (children pt) ms).
Proof.
  unfold produce_txt. cbv zeta. unfold bind_raises at 1.
  destruct (mib (mem (pi pt))) as [e|m] eqn:E.
  - split; [discriminate|]. intros (m & ms & Hm%mib_inr & _). congruence.
  - apply mib_inr in E. unfold bind_raises.
    destruct (children_txt (strftime now) (children pt)) as [e|cs] eqn:Ec.
    + split; [discriminate|]. intros (m' & ms & _ & Hms & _).
      assert (inl e = inr (text_of_lines
                (zip_with (child_line_of (strftime now)) (children pt) ms)))
        by (rewrite <- Ec; apply children_txt_inr; eauto). discriminate.
    + apply children_txt_inr in Ec as (ms & Hms & ->). split.
      * intros [= <-]. exists m, ms. repeat split; [exact E | exact Hms |].
        rewrite text_of_lines_cons. unfold header_line.
        now rewrite !append_assoc.
      * intros (m' & ms' & Hm' & Hms' & ->).
        rewrite E in Hm'. injection Hm' as <-.
        assert (ms' = ms) as -> by (eapply format_mibs_unique; eauto).
        rewrite text_of_lines_cons. unfold header_line. now rewrite !append_assoc.
Qed.

Lemma child_lines_no_LF timestamp cs ms :
  no_LF timestamp ->
  Forall2 (fun c m => Py.format_mib (mem c) = Some m) cs ms ->
  Forall no_LF (zip_with (child_line_of timestamp) cs ms).
Proof.
  intros Ht. induction 1 as [|c m cs ms Hm _ IH]; cbn [zip_with]; constructor; [|exact IH].
  apply child_line_no_LF;
    [exact Ht | apply str_of_int_no_LF | now apply format_mib_no_LF in Hm
     | apply str_of_list_no_LF].
Qed.

(** Read back line by line, the snapshot text is the header line followed
    by exactly one line for each child. *)
Lemma produce_txt_lines now pt txt :
  produce_txt now pt = inr txt ->
  exists m ms,
    Py.format_mib (mem (pi pt)) = Some m /\
    Forall2 (fun c m' => Py.format_mib (mem c) = Some m') (children pt) ms /\
    forall rest,
      lines_of (txt +:+ rest) =
      header_line (strftime now) (Py.str_of_int (pid (pi pt))) m ::
      zip_with (child_line_of (strftime now)) (children pt) ms ++ lines_of rest.
Proof.
  intros (m & ms & Hm & Hms & ->)%produce_txt_inr.
  exists m, ms. repeat split; [exact Hm | exact Hms |]. intros rest.
  rewrite lines_of_text_of_lines; [reflexivity|].
  constructor.
  - apply header_line_no_LF;
      [apply strftime_no_LF | apply str_of_int_no_LF | now apply format_mib_no_LF in Hm].
  - apply child_lines_no_LF; [apply strftime_no_LF | exact Hms].
Qed.

(** Snapshots of realistic sizes can always be shown. *)
Lemma produce_txt_total now pt :
  Z.abs (mem (pi pt)) < 2 ^ 53 ->
  Forall (fun c => Z.abs (mem c) < 2 ^ 53) (children pt) ->
  exists txt, produce_txt now pt = inr txt.
Proof.
  intros [m Hm]%format_mib_total Hcs.
  assert (exists ms, Forall2 (fun c m' => Py.format_mib (mem c) = Some m') (children pt) ms)
    as [ms Hms].
  { induction Hcs as [|c cs [m' Hm']%format_mib_total _ [ms IH]].
    - exists []. constructor.
    - exists (m' :: ms). now constructor. }
  eexists. apply produce_txt_inr. eauto.
Qed.

End Formatter.

(** ** The stream drainer *)

Section Drainer.

Implicit Types (s u : string) (c : ascii) (P : ascii -> bool).

Lemma rstrip_strip_trailing s : Py.rstrip s = strip_trailing Py.isspace s.
Proof. induction s as [|c s IH]; [reflexivity|]. simpl. now rewrite IH. Qed.

Lemma strip_trailing_all P u : all_chars P u = true -> strip_trailing P u = "".
Proof.
  induction u as [|c u IH]; [reflexivity|]. simpl.
  intros [Hc Hu]%andb_prop. now rewrite (IH Hu), Hc.
Qed.

(** Trailing characters of the class make no difference. *)
Lemma strip_trailing_append P s u :
  all_chars P u = true -> strip_trailing P (s +:+ u) = strip_trailing P s.
Proof.
  intros Hu. induction s as [|c s IH].
  - now apply strip_trailing_all.
  - rewrite append_cons. simpl. now rewrite IH.
Qed.

(** What is removed is a suffix made of characters of the class, and what is
    kept does not end with one. *)
Lemma strip_trailing_spec P s :
  exists u, s = strip_trailing P s +:+ u /\ all_chars P u = true /\
            match last_char (strip_trailing P s) with
            | Some c => P c = false
            | None => True
            end.
Proof.
  induction s as [|c s (u & Hs & Hu & Hlast)].
  - exists "". repeat split.
  - simpl. destruct (strip_trailing P s) as [|d r] eqn:E.
    + destruct (P c) eqn:Hc.
      * exists (String c s). repeat split. simpl. rewrite Hc. simpl.
        rewrite Hs at 1. rewrite append_nil_l. exact Hu.
      * exists u. rewrite append_cons, append_nil_l. repeat split.
        -- f_equal. rewrite Hs at 1. reflexivity.
        -- exact Hu.
        -- exact Hc.
    + exists u. rewrite append_cons. repeat split.
      * f_equal. exact Hs.
      * exact Hu.
      * cbn [last_char] in *. exact Hlast.
Qed.

(** A text that does not end with a character of the class is kept whole. *)
Lemma strip_trailing_id P s :
  match last_char s with Some c => P c = false | None => True end ->
  strip_trailing P s = s.
Proof.
  induction s as [|c s IH]; [reflexivity|]. simpl.
  destruct s as [|d s].
  - intros ->. reflexivity.
  - intros H. rewrite (IH H). reflexivity.
Qed.

Lemma not_terminator c :
  negb (is_terminator c) = true -> Ascii.eqb c Py.LF = false /\ Ascii.eqb c Py.CR = false.
Proof.
  unfold is_terminator. intros H%negb_true_iff. now apply orb_false_elim in H.
Qed.

(** A line a writer has completed is the first line read, its ending turned
    into a line feed. *)
Lemma take_line_ended (final : bool) s (e : ending) rest :
  terminator_free s ->
  (e = EndCR -> cr_complete final rest) ->
  take_line final (s +:+ ending_text e +:+ rest) = Some (s +:+ String Py.LF "", rest).
Proof.
  unfold terminator_free. induction s as [|c s IH]; intros Hs He.
  - rewrite !append_nil_l. destruct e; cbn [ending_text].
    + rewrite append_cons, append_nil_l. cbn [take_line].
      now rewrite Ascii.eqb_refl.
    + rewrite !append_cons, append_nil_l. cbn [take_line].
      assert (Ascii.eqb Py.CR Py.LF = false) as -> by reflexivity.
      now rewrite !Ascii.eqb_refl.
    + rewrite append_cons, append_nil_l. cbn [take_line].
      assert (Ascii.eqb Py.CR Py.LF = false) as -> by reflexivity.
      rewrite Ascii.eqb_refl. specialize (He eq_refl).
      destruct rest as [|d rest]; cbn [cr_complete] in He.
      * now rewrite He.
      * apply Ascii.eqb_neq in He. now rewrite He.
  - cbn [all_chars] in Hs. apply andb_prop in Hs as [Hc Hs].
    apply not_terminator in Hc as [HLF HCR].
    rewrite !append_cons. cbn [take_line]. rewrite HLF, HCR.
    now rewrite (IH Hs He).
Qed.

Lemma length_written (ls : list (string * ending)) :
  (length ls <= String.length (written ls))%nat.
Proof.
  induction ls as [|[l e] ls IH]; [reflexivity|].
  cbn [written length]. rewrite !length_append.
  assert (1 <= String.length (ending_text e))%nat by (destruct e; cbn; lia). lia.
Qed.

(** The worker thread puts every completed line of the stream in the queue,
    in order, each ended by one line feed. *)
Lemma worker_written fuel (ls : list (string * ending)) (b : bool) (queue : list qitem) :
  well_ended b ls -> (length ls < fuel)%nat ->
  worker fuel {| unread := written ls; closed := b |} queue =
  (queue ++ map (fun le => QStr (le.1 +:+ String Py.LF "")) ls,
   {| unread := ""; closed := b |}).
Proof.
  revert fuel queue.
  induction ls as [|[l e] ls IH]; intros fuel queue Hls Hfuel.
  - destruct fuel as [|fuel]; [simpl in Hfuel; lia|].
    rewrite app_nil_r. cbn [worker written]. unfold readline. cbn [unread closed take_line].
    now destruct b.
  - destruct fuel as [|fuel]; [simpl in Hfuel; lia|].
    destruct Hls as (Hl & He & Hls).
    cbn [worker written]. unfold readline. cbn [unread closed].
    rewrite take_line_ended by assumption.
    assert (String.eqb (l +:+ String Py.LF "") "" = false) as ->.
    { apply String.eqb_neq. destruct l; discriminate. }
    rewrite IH by (try assumption; simpl in Hfuel; lia).
    cbn [map fst]. now rewrite <- app_assoc.
Qed.

Lemma run_worker_written (ls : list (string * ending)) (b : bool) (queue : list qitem) :
  well_ended b ls ->
  run_worker {| unread := written ls; closed := b |} queue =
  (queue ++ map (fun le => QStr (le.1 +:+ String Py.LF "")) ls,
   {| unread := ""; closed := b |}).
Proof.
  intros Hls. unfold run_worker. apply worker_written; [exact Hls|].
  cbn [unread]. pose proof (length_written ls). lia.
Qed.

(** With a silent producer, a queue of lines is drained whole, in order. *)
Lemma read_line_quiet_strs (strs : list string) :
  read_line_quiet (map QStr strs) = (map Py.rstrip strs, []).
Proof. induction strs as [|s strs IH]; [reflexivity|]. simpl. now rewrite IH. Qed.

(** First in, first out: whatever the producer does meanwhile, the lines
    yielded are, stripped, the first lines of the production order (the
    queue, then the lines put during the call), and the others stay queued
    in that order. *)
Lemma read_line_fifo (puts : list (list string)) (strs : list string) :
  exists raw waiting rest,
    read_line puts (map QStr strs) = (map Py.rstrip raw, map QStr waiting, rest) /\
    strs ++ concat puts = raw ++ waiting ++ concat rest.
Proof.
  revert strs. induction puts as [|arrived puts IH]; intros strs.
  - exists strs, [], []. cbn [read_line]. rewrite read_line_quiet_strs.
    split; [reflexivity|]. now rewrite !app_nil_r.
  - cbn [read_line]. rewrite <- map_app.
    destruct (strs ++ arrived) as [|s strs'] eqn:E.
    + exists [], [], puts. split; [reflexivity|].
      cbn [concat]. now rewrite app_assoc, E.
    + cbn [map]. destruct (IH strs') as (raw & waiting & rest & -> & Heq).
      exists (s :: raw), waiting, rest. split; [reflexivity|].
      cbn [concat]. rewrite app_assoc, E. cbn [app]. now rewrite Heq.
Qed.

Lemma read_lines_fifo (puts : list (list string)) (strs : list string) (prefix : string) :
  exists raw waiting,
    read_lines puts {| q := map QStr strs; line_prefix := prefix |} =
      (map (fun l => tagged prefix (Py.rstrip l)) raw,
       {| q := map QStr waiting; line_prefix := prefix |}) /\
    strs ++ concat puts = raw ++ waiting.
Proof.
  destruct (read_line_fifo puts strs) as (raw & waiting & rest & Hr & Heq).
  exists raw, (waiting ++ concat rest). split; [|exact Heq].
  unfold read_lines. cbn [q line_prefix]. rewrite Hr.
  rewrite map_map, map_app. reflexivity.
Qed.

End Drainer.

(** ** One turn of the loop *)

Section Tick.

Context (interval : Z) (output_file : string) (child : Z) (t : tick)
        (stdout_reader stderr_reader : StreamReader) (w : world).

(** What a tick writes: the snapshot text, a line feed, and the tagged lines
    each followed by a line feed. *)
Lemma concat_log_lines txt out_lines err_lines :
  String.concat "" (log_lines txt out_lines err_lines) =
  txt +:+ String Py.LF (text_of_lines (out_lines ++ err_lines)).
Proof.
  unfold log_lines. rewrite concat_empty_sep. cbn [app]. apply text_of_lines_cons.
Qed.

(** A tick whose snapshot can be taken and shown, and whose output file can
    be opened, appends the same text to the file and to the terminal. *)
Lemma loop_body_writes pt txt :
  get_process_tree_info (table t) child = inr (Some pt) ->
  produce_txt (now t) pt = inr txt ->
  open_fault t = None ->
  let written :=
    txt +:+ String Py.LF (text_of_lines (tagged_lines_of_tick t stdout_reader stderr_reader)) in
  let w' := world_after (loop_body interval output_file child t stdout_reader stderr_reader w) in
  term_out w' = term_out w +:+ written /\
  term_err w' = term_err w /\
  fs w' = <[output_file := default "" (fs w !! output_file) +:+ written]> (fs w).
Proof.
  intros Hget Htxt Hopen. unfold loop_body, tagged_lines_of_tick.
  rewrite Hget, Htxt.
  destruct (read_lines (out_puts t) stdout_reader) as [out_lines ro'].
  destruct (read_lines (err_puts t) stderr_reader) as [err_lines re'].
  unfold append_file. rewrite Hopen. cbn [fst].
  destruct (sleep interval); cbn [world_after write_stdout fs term_out term_err];
    rewrite concat_log_lines; auto.
Qed.

(** The readers a tick hands to the next one. *)
Lemma loop_body_continue ro' re' w' :
  loop_body interval output_file child t stdout_reader stderr_reader w = Continue ro' re' w' ->
  ro' = (read_lines (out_puts t) stdout_reader).2 /\
  re' = (read_lines (err_puts t) stderr_reader).2 /\
  0 <= interval /\ open_fault t = None /\
  exists pt txt, get_process_tree_info (table t) child = inr (Some pt) /\
                 produce_txt (now t) pt = inr txt.
Proof.
  unfold loop_body.
  destruct (get_process_tree_info (table t) child) as [e|[pt|]]; try discriminate.
  destruct (produce_txt (now t) pt) as [e|txt] eqn:Htxt; try discriminate.
  destruct (read_lines (out_puts t) stdout_reader) as [out_lines ro1].
  destruct (read_lines (err_puts t) stderr_reader) as [err_lines re1].
  unfold append_file. destruct (open_fault t); try discriminate.
  unfold sleep. destruct (Z.ltb_spec interval 0); try discriminate.
  intros [= <- <- <-]. repeat split; eauto.
Qed.

End Tick.

(** ** The record of a tick *)

(** C3, as the specification words it, fails: in the sample tick the line
    [stdout> hello] holds no timestamp. *)
Lemma tagged_lines_carry_no_timestamp : ~ tagged_lines_timestamped.
Proof.
  intros H.
  specialize (H sample_tick (new_reader "stdout") (new_reader "stderr")).
  assert (tagged_lines_of_tick sample_tick (new_reader "stdout") (new_reader "stderr")
          = ["stdout> hello"; "stderr> oops"]) as E by (vm_compute; reflexivity).
  rewrite E in H. apply List.Forall_inv in H. vm_compute in H. discriminate.
Qed.

(** C3, amended. The snapshot text of a record is one header line showing
    the root's pid, its memory in mebibytes with three decimal places and the
    timestamp [YYYY-MM-DD HH:MM:SS], then exactly one line for each child
    showing its pid, its memory in the same form and its command line. The
    lines drained from a stream follow as [<tag>> <text>], one for each text
    drained; they carry no timestamp. *)
Theorem record_layout (now : datetime) (pt : ProcessTreeInfo) (txt : string)
    (puts : list (list string)) (r : StreamReader) :
  clock_reading now ->
  produce_txt now pt = inr txt ->
  timestamp_text now (strftime now) /\
  (exists m ms,
     mebibytes_text (mem (pi pt)) m /\
     Forall2 (fun c m' => mebibytes_text (mem c) m') (children pt) ms /\
     lines_of txt =
       header_line (strftime now) (Py.str_of_int (pid (pi pt))) m ::
       zip_with (child_line_of (strftime now)) (children pt) ms) /\
  (exists texts,
     (read_lines puts r).1 = map (tagged (line_prefix r)) texts /\
     texts = (read_line puts (q r)).1.1).
Proof.
  intros Hclock (m & ms & Hm & Hms & Hlines)%produce_txt_lines.
  split; [now apply strftime_text|]. split.
  - exists m, ms. split; [now apply format_mib_text|]. split.
    + eapply Forall2_impl; [exact Hms|]. intros c m'. apply format_mib_text.
    + specialize (Hlines ""). rewrite append_nil_r in Hlines.
      rewrite Hlines. cbn [lines_of]. now rewrite app_nil_r.
  - unfold read_lines. destruct (read_line puts (q r)) as [[ys remaining] rest].
    exists ys. split; reflexivity.
Qed.

Lemma record_layout_sample :
  exists txt,
    produce_txt sample_now sample_snapshot = inr txt /\
    lines_of txt =
      [ "prob> [2024-03-07 09:05:00] pid=10, mem=3.000M :";
        "prob> [2024-03-07 09:05:00]   - pid=11, mem=0.062M, cmd=['sleep', '2']" ] /\
    timestamp_text sample_now (strftime sample_now).
Proof.
  eexists. split; [vm_compute; reflexivity|]. split; [vm_compute; reflexivity|].
  eapply (record_layout sample_now sample_snapshot _ [] (new_reader "stdout")).
  - unfold clock_reading. simpl. lia.
  - vm_compute. reflexivity.
Defined.

(** C5. The snapshot text is a function of the snapshot and of the timestamp
    as formatted: two readings of the clock that format alike give the same
    text, character for character. Formatting writes nothing: when it fails
    the world is as it was. *)
Theorem formatting_deterministic (now1 now2 : datetime) (pt : ProcessTreeInfo) :
  strftime now1 = strftime now2 ->
  produce_txt now1 pt = produce_txt now2 pt /\
  forall interval output_file child t stdout_reader stderr_reader w e,
    get_process_tree_info (table t) child = inr (Some pt) ->
    produce_txt (now t) pt = inl e ->
    loop_body interval output_file child t stdout_reader stderr_reader w =
    Stop (Uncaught e) w.
Proof.
  intros Hts. split.
  - unfold produce_txt. cbv zeta. now rewrite Hts.
  - intros interval output_file child t ro re w e Hget Htxt.
    unfold loop_body. now rewrite Hget, Htxt.
Qed.

Lemma formatting_deterministic_sample :
  strftime sample_now = strftime sample_later /\
  produce_txt sample_now sample_snapshot = produce_txt sample_later sample_snapshot.
Proof.
  split; [reflexivity|].
  apply (formatting_deterministic sample_now sample_later sample_snapshot). reflexivity.
Defined.

(** C7. In the batch of a tick the lines of standard output come before the
    lines of standard error, and each stream's lines are the first lines of
    that stream in the order the worker produced them (what was queued, then
    what arrived during the drain); the lines not drained stay queued, in
    order, for the next tick. *)
Theorem stdout_before_stderr_fifo (interval : Z) (output_file : string) (child : Z)
    (t : tick) (queued_out queued_err : list string) (tag_out tag_err : string)
    (w : world) (pt : ProcessTreeInfo) (txt : string) :
  get_process_tree_info (table t) child = inr (Some pt) ->
  produce_txt (now t) pt = inr txt ->
  open_fault t = None ->
  let stdout_reader := {| q := map QStr queued_out; line_prefix := tag_out |} in
  let stderr_reader := {| q := map QStr queued_err; line_prefix := tag_err |} in
  let after := loop_body interval output_file child t stdout_reader stderr_reader w in
  exists drained_out waiting_out drained_err waiting_err,
    queued_out ++ concat (out_puts t) = drained_out ++ waiting_out /\
    queued_err ++ concat (err_puts t) = drained_err ++ waiting_err /\
    term_out (world_after after) =
      term_out w +:+ txt +:+
      String Py.LF (text_of_lines
        (map (fun l => tagged tag_out (Py.rstrip l)) drained_out ++
         map (fun l => tagged tag_err (Py.rstrip l)) drained_err)) /\
    forall stdout_reader' stderr_reader' w',
      after = Continue stdout_reader' stderr_reader' w' ->
      q stdout_reader' = map QStr waiting_out /\ q stderr_reader' = map QStr waiting_err.
Proof.
  intros Hget Htxt Hopen ro re after.
  destruct (read_lines_fifo (out_puts t) queued_out tag_out)
    as (drained_out & waiting_out & Hout & Heq_out).
  destruct (read_lines_fifo (err_puts t) queued_err tag_err)
    as (drained_err & waiting_err & Herr & Heq_err).
  exists drained_out, waiting_out, drained_err, waiting_err.
  split; [exact Heq_out|]. split; [exact Heq_err|]. split.
  - destruct (loop_body_writes interval output_file child t ro re w pt txt Hget Htxt Hopen)
      as (Hterm & _ & _).
    unfold after. rewrite Hterm. unfold tagged_lines_of_tick, ro, re.
    now rewrite Hout, Herr.
  - intros ro' re' w' (-> & -> & _)%loop_body_continue.
    unfold ro, re. now rewrite Hout, Herr.
Qed.

Lemma stdout_before_stderr_sample :
  let after :=
    loop_body 1 "mem.log" 10 sample_tick (new_reader "stdout") (new_reader "stderr")
      sample_world in
  exists drained_out waiting_out drained_err waiting_err,
    [] ++ concat (out_puts sample_tick) = drained_out ++ waiting_out /\
    [] ++ concat (err_puts sample_tick) = drained_err ++ waiting_err /\
    term_out (world_after after) =
      term_out sample_world +:+ sample_txt +:+
      String Py.LF (text_of_lines
        (map (fun l => tagged "stdout" (Py.rstrip l)) drained_out ++
         map (fun l => tagged "stderr" (Py.rstrip l)) drained_err)) /\
    forall stdout_reader' stderr_reader' w',
      after = Continue stdout_reader' stderr_reader' w' ->
      q stdout_reader' = map QStr waiting_out /\ q stderr_reader' = map QStr waiting_err.
Proof.
  apply (stdout_before_stderr_fifo 1 "mem.log" 10 sample_tick [] [] "stdout" "stderr"
           sample_world sample_snapshot sample_txt).
  - vm_compute. reflexivity.
  - vm_compute. reflexivity.
  - reflexivity.
Defined.

Lemma text_of_lines_ends_with_LF (s : string) (ls : list string) :
  exists body, text_of_lines (s :: ls) = body +:+ String Py.LF "".
Proof.
  revert s. induction ls as [|s' ls IH]; intros s.
  - exists s. reflexivity.
  - destruct (IH s') as [body Hbody]. exists (s +:+ String Py.LF body).
    rewrite text_of_lines_cons, Hbody. now rewrite append_assoc, append_cons.
Qed.

(** C8. The snapshot text ends with a line feed and the loop appends one
    more, so what a tick writes to the file and to the terminal is the header
    line, one line for each child, an empty line, and then the tagged
    lines. *)
Theorem blank_line_after_snapshot_block (interval : Z) (output_file : string) (child : Z)
    (t : tick) (stdout_reader stderr_reader : StreamReader) (w : world)
    (pt : ProcessTreeInfo) (txt : string) :
  get_process_tree_info (table t) child = inr (Some pt) ->
  produce_txt (now t) pt = inr txt ->
  open_fault t = None ->
  let tagged_text := text_of_lines (tagged_lines_of_tick t stdout_reader stderr_reader) in
  let written := txt +:+ String Py.LF tagged_text in
  let w' := world_after (loop_body interval output_file child t stdout_reader stderr_reader w) in
  (exists body, txt = body +:+ String Py.LF "") /\
  term_out w' = term_out w +:+ written /\
  fs w' !! output_file = Some (default "" (fs w !! output_file) +:+ written) /\
  exists block,
    lines_of txt = block /\
    length block = S (length (children pt)) /\
    lines_of written = block ++ "" :: lines_of tagged_text.
Proof.
  intros Hget Htxt Hopen tagged_text written w'.
  destruct (loop_body_writes interval output_file child t stdout_reader stderr_reader w
              pt txt Hget Htxt Hopen) as (Hterm & _ & Hfs).
  split; [|split; [exact Hterm | split]].
  - apply produce_txt_inr in Htxt as (m & ms & _ & _ & ->).
    apply text_of_lines_ends_with_LF.
  - unfold w'. rewrite Hfs. apply lookup_insert_eq.
  - destruct (produce_txt_lines _ _ _ Htxt) as (m & ms & _ & Hms & Hlines).
    eexists. split; [|split].
    + rewrite <- (append_nil_r txt). rewrite (Hlines ""). cbn [lines_of].
      rewrite app_nil_r. reflexivity.
    + cbn [length]. f_equal. eapply length_zip_with_same_l. exact Hms.
    + unfold written. rewrite (Hlines (String Py.LF tagged_text)).
      cbn [lines_of]. rewrite Ascii.eqb_refl. reflexivity.
Qed.

Lemma blank_line_sample :
  let w' :=
    world_after (loop_body 1 "mem.log" 10 sample_tick (new_reader "stdout")
                   (new_reader "stderr") sample_world) in
  lines_of (term_out w') =
    [ "prob> [2024-03-07 09:05:00] pid=10, mem=3.000M :";
      "prob> [2024-03-07 09:05:00]   - pid=11, mem=0.062M, cmd=['sleep', '2']";
      "";
      "stdout> hello";
      "stderr> oops" ] /\
  fs w' !! "mem.log" = Some ("stale" +:+ term_out w').
Proof.
  destruct (blank_line_after_snapshot_block 1 "mem.log" 10 sample_tick
              (new_reader "stdout") (new_reader "stderr") sample_world
              sample_snapshot sample_txt
              ltac:(vm_compute; reflexivity) ltac:(vm_compute; reflexivity) eq_refl)
    as (_ & Hterm & Hfs & block & Hblock & _ & Hlines).
  cbv zeta. rewrite Hfs, Hterm. split.
  - cbn [term_out sample_world]. rewrite append_nil_l, Hlines, <- Hblock.
    vm_compute. reflexivity.
  - vm_compute. reflexivity.
Defined.

(** ** Draining a stream *)

(** C4, as the specification words it, fails: a line written as [hello]
    followed by two spaces is drained as [hello]. *)
Lemma rstrip_removes_trailing_spaces : ~ strips_only_terminators.
Proof.
  intros H.
  specialize (H ["hello  "] false "stdout").
  assert (Forall terminator_free ["hello  "]) as Hlines by (repeat constructor).
  specialize (H Hlines). vm_compute in H. discriminate.
Qed.

(** C4, amended. Every line is stripped of all its trailing whitespace, not
    only of line feeds and carriage returns, when it is drained. Draining
    after complete lines have been written (each ended by a line feed, by a
    carriage return and a line feed, or by a carriage return alone) yields
    exactly those lines, in order, each tagged and equal to the written text
    less its trailing whitespace: what is removed is a run of whitespace at
    the end, what is kept does not end in whitespace, and a line that does not
    end in whitespace is returned as it was written. *)
Theorem drained_lines_lose_trailing_whitespace (lines : list (string * ending)) (b : bool)
    (prefix : string) :
  well_ended b lines ->
  (read_lines []
     {| q := (run_worker {| unread := written lines; closed := b |} []).1;
        line_prefix := prefix |}).1 =
    map (fun le => tagged prefix (Py.rstrip le.1)) lines /\
  (forall l, exists removed,
     l = Py.rstrip l +:+ removed /\ all_chars Py.isspace removed = true /\
     match last_char (Py.rstrip l) with
     | Some c => Py.isspace c = false
     | None => True
     end) /\
  (forall l, match last_char l with Some c => Py.isspace c = false | None => True end ->
             Py.rstrip l = l).
Proof.
  intros Hlines. split; [|split].
  - rewrite run_worker_written by exact Hlines. cbn [fst app].
    unfold read_lines. cbn [q line_prefix read_line].
    rewrite <- (map_map (fun le : string * ending => le.1 +:+ String Py.LF "") QStr),
      read_line_quiet_strs.
    cbn [concat map app]. rewrite !map_map. apply map_ext. intros [l e].
    unfold tagged. cbn [fst]. do 2 f_equal.
    rewrite !rstrip_strip_trailing. now apply strip_trailing_append.
  - intros l. rewrite rstrip_strip_trailing. apply strip_trailing_spec.
  - intros l Hl. rewrite rstrip_strip_trailing. now apply strip_trailing_id.
Qed.

Lemma drained_lines_sample :
  (read_lines []
     {| q := (run_worker
                {| unread :=
                     written [("hello  ", EndLF); ("10%", EndCR); ("20%", EndCRLF);
                              ("a b", EndLF); ("", EndLF)];
                   closed := false |} []).1;
        line_prefix := "stdout" |}).1 =
  ["stdout> hello"; "stdout> 10%"; "stdout> 20%"; "stdout> a b"; "stdout> "].
Proof.
  assert (well_ended false
            [("hello  ", EndLF); ("10%", EndCR); ("20%", EndCRLF); ("a b", EndLF);
             ("", EndLF)]) as Hlines.
  { cbn [well_ended]. repeat split; try discriminate. }
  destruct (drained_lines_lose_trailing_whitespace _ false "stdout" Hlines) as (-> & _ & _).
  vm_compute. reflexivity.
Defined.

(** ** Runs *)

Section Runs.

Context (interval : Z) (output_file : string).

Implicit Types (w : world) (e : env) (ts : list tick).

(** A run over more ticks goes on from where the run over the first of them
    stopped. *)
Lemma monitor_loop_app child pre post stdout_reader stderr_reader w :
  monitor_loop interval output_file child (pre ++ post) stdout_reader stderr_reader w =
  match monitor_loop interval output_file child pre stdout_reader stderr_reader w with
  | Looping stdout_reader' stderr_reader' w' =>
      monitor_loop interval output_file child post stdout_reader' stderr_reader' w'
  | Finished o w' => Finished o w'
  end.
Proof.
  revert stdout_reader stderr_reader w.
  induction pre as [|t pre IH]; intros ro re w; [reflexivity|].
  cbn [app monitor_loop]. destruct (poll t); [reflexivity|].
  destruct (loop_body interval output_file child t ro re w); [reflexivity | apply IH].
Qed.

Lemma try_remove_file_true fault w w' :
  try_remove_file fault output_file w = (true, w') ->
  fault = None /\ fs w' = delete output_file (fs w) /\
  term_out w' = term_out w /\ term_err w' = term_err w.
Proof.
  unfold try_remove_file, os_remove.
  destruct fault as [[m|m]|]; try discriminate.
  destruct (fs w !! output_file) eqn:E.
  - intros [= <-]. auto.
  - intros [= <-]. rewrite delete_id by exact E. auto.
Qed.

Lemma try_remove_file_false fault w w' :
  try_remove_file fault output_file w = (false, w') ->
  exists msg, w' = print ("Error: " +:+ msg) w.
Proof.
  unfold try_remove_file, os_remove.
  destruct fault as [[m|m]|]; [| |destruct (fs w !! output_file); discriminate].
  - intros [= <-]. eexists. reflexivity.
  - intros [= <-]. eexists. reflexivity.
Qed.

(** Nothing the program does writes to standard error. *)
Lemma loop_body_term_err child t stdout_reader stderr_reader w :
  term_err (world_after (loop_body interval output_file child t stdout_reader stderr_reader w))
  = term_err w.
Proof.
  unfold loop_body.
  destruct (get_process_tree_info (table t) child) as [e|[pt|]]; [reflexivity| |reflexivity].
  destruct (produce_txt (now t) pt); [reflexivity|].
  destruct (read_lines (out_puts t) stdout_reader), (read_lines (err_puts t) stderr_reader).
  unfold append_file. destruct (open_fault t); [reflexivity|].
  destruct (sleep interval); reflexivity.
Qed.

Lemma monitor_loop_term_err child ts stdout_reader stderr_reader w :
  term_err (world_of (monitor_loop interval output_file child ts stdout_reader stderr_reader w))
  = term_err w.
Proof.
  revert stdout_reader stderr_reader w.
  induction ts as [|t ts IH]; intros ro re w; [reflexivity|].
  cbn [monitor_loop]. destruct (poll t); [reflexivity|].
  pose proof (loop_body_term_err child t ro re w) as Hbody.
  destruct (loop_body interval output_file child t ro re w); cbn [world_after] in Hbody.
  - exact Hbody.
  - rewrite IH. exact Hbody.
Qed.

Lemma monitor_command_term_err command e w :
  term_err (world_of (monitor_command interval output_file command e w)) = term_err w.
Proof.
  unfold monitor_command.
  destruct (try_remove_file (remove_fault_of e) output_file w) as [[|] w'] eqn:E.
  - apply try_remove_file_true in E as (_ & _ & _ & <-).
    destruct (popen e command); [reflexivity|].
    destruct (attach_stdout e), (attach_stderr e); try reflexivity.
    apply monitor_loop_term_err.
  - apply try_remove_file_false in E as (msg & ->). reflexivity.
Qed.

(** A run that started reaches the loop in a world where the output file
    does not exist. *)
Lemma monitor_command_started command e w child :
  (try_remove_file (remove_fault_of e) output_file w).1 = true ->
  popen e command = inr child ->
  attach_stdout e = None -> attach_stderr e = None ->
  exists w0,
    fs w0 = delete output_file (fs w) /\ term_out w0 = term_out w /\
    term_err w0 = term_err w /\
    monitor_command interval output_file command e w =
    monitor_loop interval output_file child (ticks e)
      (new_reader "stdout") (new_reader "stderr") w0.
Proof.
  intros Hrm Hpopen Hout Herr. unfold monitor_command.
  destruct (try_remove_file (remove_fault_of e) output_file w) as [ok w0] eqn:E.
  cbn [fst] in Hrm. subst ok.
  apply try_remove_file_true in E as (_ & Hfs & Hto & Hte).
  exists w0. rewrite Hpopen, Hout, Herr. auto.
Qed.

End Runs.

Lemma monitor_command_loop (interval : Z) (output_file : string) (command : list string)
    (e : env) (w : world) (child : Z) :
  (try_remove_file (remove_fault_of e) output_file w).1 = true ->
  popen e command = inr child ->
  attach_stdout e = None -> attach_stderr e = None ->
  monitor_command interval output_file command e w =
  monitor_loop interval output_file child (ticks e)
    (new_reader "stdout") (new_reader "stderr")
    (try_remove_file (remove_fault_of e) output_file w).2.
Proof.
  intros Hrm Hpopen Hout Herr. unfold monitor_command.
  destruct (try_remove_file (remove_fault_of e) output_file w) as [ok w0].
  cbn [fst] in Hrm. subst ok. now rewrite Hpopen, Hout, Herr.
Qed.

(** C6, as the specification words it, fails: when the command cannot be
    launched, nothing is written to standard error. *)
Lemma launch_failure_not_on_stderr : ~ failures_reported_on_stderr.
Proof.
  intros H.
  destruct (H 1 "mem.log" ["nope"] no_such_command_env sample_world)
    as (msg & w' & Hrun & Hmsg & Herr).
  - right. left. eexists. reflexivity.
  - pose proof (monitor_command_term_err 1 "mem.log" ["nope"] no_such_command_env
                  sample_world) as Hsame.
    rewrite Hrun in Hsame. cbn [world_of] in Hsame.
    rewrite Hsame in Herr. cbn [term_err sample_world] in Herr.
    rewrite append_nil_l in Herr. congruence.
Qed.

(** C6, amended. A startup failure (the output file cannot be cleared, the
    child cannot be launched, a reader cannot be attached) ends the run with
    exit status 1 after a line starting [Error: ] has been printed on
    standard output. So does a failure of the collector in the middle of a
    run, after the ticks before it have been written. Standard error is
    never written to. *)
Theorem failures_exit_1_message_on_stdout (interval : Z) (output_file : string)
    (command : list string) (e : env) (w : world) :
  (startup_fails e output_file command w ->
   exists msg w0,
     monitor_command interval output_file command e w =
       Finished (Exited 1) (print ("Error: " +:+ msg) w0) /\
     term_out w0 = term_out w /\ exit_status (Exited 1) = 1) /\
  (forall child pre t post stdout_reader stderr_reader w1 ex,
     (try_remove_file (remove_fault_of e) output_file w).1 = true ->
     popen e command = inr child ->
     attach_stdout e = None -> attach_stderr e = None ->
     ticks e = pre ++ t :: post ->
     monitor_loop interval output_file child pre (new_reader "stdout") (new_reader "stderr")
       (try_remove_file (remove_fault_of e) output_file w).2
       = Looping stdout_reader stderr_reader w1 ->
     poll t = None ->
     get_process_tree_info (table t) child = inl ex ->
     monitor_command interval output_file command e w =
       Finished (Exited 1)
         (print ("Error: Cannot get process (pid=" +:+ Py.str_of_int child +:+
                 ") info: " +:+ str_of_exn ex) w1)) /\
  term_err (world_of (monitor_command interval output_file command e w)) = term_err w.
Proof.
  split; [|split].
  - intros Hfail. unfold monitor_command.
    destruct (try_remove_file (remove_fault_of e) output_file w) as [[|] w0] eqn:E.
    + pose proof E as Hok. apply try_remove_file_true in E as (_ & _ & Hto & _).
      destruct (popen e command) as [ex|child] eqn:Hpopen.
      { eexists _, w0. split; [reflexivity | auto]. }
      destruct (attach_stdout e) as [ex|] eqn:Hout.
      { eexists _, w0. split; [reflexivity | auto]. }
      destruct (attach_stderr e) as [ex|] eqn:Herr.
      { eexists _, w0. split; [reflexivity | auto]. }
      destruct Hfail as [Hrm | [[ex Hex] | [[ex Hex] | [ex Hex]]]];
        [rewrite Hok in Hrm; discriminate | congruence..].
    + apply try_remove_file_false in E as (msg & ->). exists msg, w. auto.
  - intros child pre t post ro re w1 ex Hrm Hpopen Hout Herr Hticks Hpre Hpoll Hget.
    rewrite (monitor_command_loop _ _ _ _ _ child Hrm Hpopen Hout Herr).
    rewrite Hticks, monitor_loop_app, Hpre. cbn [monitor_loop]. rewrite Hpoll.
    unfold loop_body. now rewrite Hget.
  - apply monitor_command_term_err.
Qed.

Lemma failures_sample :
  (startup_fails no_such_command_env "mem.log" ["nope"] sample_world /\
   exists msg w0,
     monitor_command 1 "mem.log" ["nope"] no_such_command_env sample_world =
       Finished (Exited 1) (print ("Error: " +:+ msg) w0) /\
     term_out w0 = term_out sample_world /\ exit_status (Exited 1) = 1) /\
  (exists w1,
     monitor_command 1 "mem.log" ["sh"] (sample_env [sample_tick; denied_tick]) sample_world =
       Finished (Exited 1)
         (print "Error: Cannot get process (pid=10) info: access denied" w1)).
Proof.
  split.
  - assert (startup_fails no_such_command_env "mem.log" ["nope"] sample_world) as Hfail
      by (right; left; eexists; reflexivity).
    split; [exact Hfail|].
    exact (proj1 (failures_exit_1_message_on_stdout 1 "mem.log" ["nope"]
                    no_such_command_env sample_world) Hfail).
  - eexists.
    eapply (proj1 (proj2 (failures_exit_1_message_on_stdout 1 "mem.log" ["sh"]
                            (sample_env [sample_tick; denied_tick]) sample_world))
              10 [sample_tick] denied_tick [] _ _ _ (OtherException "access denied")).
    + reflexivity.
    + reflexivity.
    + reflexivity.
    + reflexivity.
    + reflexivity.
    + vm_compute. reflexivity.
    + reflexivity.
    + reflexivity.
Defined.

(** C10. When the child is already gone at the first tick (its exit is
    reported, or the collector finds no such process), the run returns
    normally, with exit status 0, having written nothing: the output file,
    removed at startup, does not exist, and the terminal is as it was. *)
Theorem no_output_file_before_first_snapshot (interval : Z) (output_file : string)
    (command : list string) (e : env) (w : world) (child : Z) (t : tick) (ts : list tick) :
  (try_remove_file (remove_fault_of e) output_file w).1 = true ->
  popen e command = inr child ->
  attach_stdout e = None -> attach_stderr e = None ->
  ticks e = t :: ts ->
  is_Some (poll t) \/ get_process_tree_info (table t) child = inr None ->
  exists o w',
    monitor_command interval output_file command e w = Finished o w' /\
    o = Returned /\ exit_status o = 0 /\
    fs w' !! output_file = None /\
    fs w' = delete output_file (fs w) /\
    term_out w' = term_out w /\ term_err w' = term_err w.
Proof.
  intros Hrm Hpopen Hout Herr Hticks Hgone.
  destruct (monitor_command_started interval output_file command e w child
              Hrm Hpopen Hout Herr) as (w0 & Hfs & Hto & Hte & ->).
  exists Returned, w0. rewrite Hticks. cbn [monitor_loop].
  assert (fs w0 !! output_file = None) by (rewrite Hfs; apply lookup_delete_eq).
  destruct Hgone as [[status Hpoll] | Hget].
  - rewrite Hpoll. auto 10.
  - destruct (poll t); [auto 10|]. unfold loop_body. rewrite Hget. auto 10.
Qed.

Lemma child_already_gone_sample :
  exists w',
    monitor_command 1 "mem.log" ["true"] (sample_env [gone_tick]) sample_world
      = Finished Returned w' /\
    fs w' !! "mem.log" = None /\ term_out w' = "".
Proof.
  destruct (no_output_file_before_first_snapshot 1 "mem.log" ["true"]
              (sample_env [gone_tick]) sample_world 10 gone_tick [])
    as (o & w' & Hrun & -> & _ & Hfile & _ & Hout & _).
  - reflexivity.
  - reflexivity.
  - reflexivity.
  - reflexivity.
  - reflexivity.
  - right. reflexivity.
  - exists w'. auto.
Defined.

(** ** Sample snapshots *)

Lemma snapshot_sample :
  get_process_tree_info sample_table 10 = inr (Some sample_snapshot) /\
  Forall2 (fun v c => cv_pid v = pid c /\ cv_memory_info v = inr (mem c) /\
                      cv_cmdline v = inr (cmd c))
    (List.filter fully_inspected (enumerated_by sample_table 10))
    (children sample_snapshot).
Proof.
  split; [reflexivity|].
  apply (proj2 (snapshot_children_fully_inspected sample_table 10)). reflexivity.
Defined.

Lemma not_found_sample :
  get_process_tree_info gone_table 10 = inr None /\
  get_process_tree_info denied_table 10 = inl (OtherException "access denied").
Proof.
  split.
  - apply (proj1 (proj2 (not_found_iff_no_such_process gone_table 10))
             "process no longer exists"). reflexivity.
  - apply (proj2 (proj2 (not_found_iff_no_such_process denied_table 10))).
    split; reflexivity.
Defined.

Lemma snapshot_root_sample :
  get_process_tree_info sample_table 10 = inr (Some sample_snapshot) /\
  pid (pi sample_snapshot) = 10 /\ cmd (pi sample_snapshot) = [] /\
  root_memory (sample_table 10) = inr (mem (pi sample_snapshot)).
Proof.
  split; [reflexivity|].
  apply (snapshot_root_fields sample_table 10 sample_snapshot). reflexivity.
Defined.

(** * Further properties of the program *)

(** ** The collector at the edges *)

(** X1. When the enumeration of the descendants fails, or finds none, the
    collector still answers with a snapshot: the root, and no children. *)
Theorem no_descendants_empty_children (ps : psutil) (p rss : Z) :
  root_memory (ps p) = inr rss ->
  (exists e, pv_children (ps p) = inl e) \/ pv_children (ps p) = inr [] ->
  get_process_tree_info ps p =
  inr (Some {| pi := {| pid := p; mem := rss; cmd := [] |}; children := [] |}).
Proof.
  intros Hroot Hnone. apply get_process_tree_info_Some. exists rss.
  split; [exact Hroot|]. unfold enumerated_by.
  destruct Hnone as [[e ->] | ->]; reflexivity.
Qed.

Lemma no_descendants_sample :
  get_process_tree_info
    (fun _ => {| pv_lookup := None; pv_memory_info := inr 4096;
                 pv_children := inl (OtherException "access denied") |}) 7 =
  inr (Some {| pi := {| pid := 7; mem := 4096; cmd := [] |}; children := [] |}).
Proof.
  apply no_descendants_empty_children; [reflexivity|].
  left. eexists. reflexivity.
Defined.

(** ** Clearing the output file *)

(** X2. [try_remove_file] answers [True] exactly when [os.remove] returned
    or raised FileNotFoundError. Then the file does not exist, every other
    file is as it was and nothing was printed. When [os.remove] raises
    PermissionError the answer is [False], no file is touched and the line
    printed on standard output is the permission message naming the file;
    when it raises anything else the answer is [False], no file is touched
    and the line printed is the general message, naming the file and ending
    with the text of that exception. Standard error is never written to. *)
Theorem try_remove_file_outcome (fault : option remove_fault) (file : string) (w : world) :
  let ok := (try_remove_file fault file w).1 in
  let w' := (try_remove_file fault file w).2 in
  term_err w' = term_err w /\
  (ok = true <->
     (exists w1, os_remove fault file w = inr w1) \/
     (exists m, os_remove fault file w = inl (FileNotFoundError m))) /\
  (ok = true ->
     fs w' !! file = None /\ (forall g, g <> file -> fs w' !! g = fs w !! g) /\
     term_out w' = term_out w) /\
  (forall m, os_remove fault file w = inl (PermissionError m) ->
     ok = false /\ fs w' = fs w /\
     term_out w' =
       term_out w +:+ "Error: Permission denied: unable to rewrite '" +:+ file +:+ "'" +:+
       String Py.LF "") /\
  (forall e, os_remove fault file w = inl e ->
     (forall m, e <> FileNotFoundError m) -> (forall m, e <> PermissionError m) ->
     ok = false /\ fs w' = fs w /\
     term_out w' =
       term_out w +:+ "Error: unable to rewrite '" +:+ file +:+ "': " +:+ str_of_exn e +:+
       String Py.LF "").
Proof.
  cbv zeta. unfold try_remove_file.
  destruct (os_remove fault file w) as [e|w1] eqn:E.
  - destruct e as [m|m|m|m|m|m]; cbn [fst snd print term_out term_err fs str_of_exn].
    all: split; [reflexivity|].
    all: split; [split; [try discriminate; eauto | intros [[w1 [=]] | [m' H]];
                           first [reflexivity | discriminate H]]|].
    all: split; [try discriminate|].
    all: try (split; [intros m' [=] | intros e' [= <-] Hfnf Hperm;
                      first [now destruct (Hfnf m) | now destruct (Hperm m) | idtac]]).
    all: try (repeat split; rewrite ?append_assoc; reflexivity).
    + intros _. unfold os_remove in E.
      destruct fault as [[m'|m']|]; try discriminate.
      destruct (fs w !! file) eqn:Hfile; [discriminate|]. auto.
  - cbn [fst snd]. split.
    + unfold os_remove in E. destruct fault as [[m|m]|]; try discriminate.
      destruct (fs w !! file); [|discriminate]. now injection E as <-.
    + split; [split; eauto|]. split; [|split; [intros m [=] | intros e [=]]].
      intros _. unfold os_remove in E. destruct fault as [[m|m]|]; try discriminate.
      destruct (fs w !! file); [|discriminate]. injection E as <-. cbn [fs term_out].
      repeat split; [apply lookup_delete_eq|].
      intros g Hg. apply lookup_delete_ne. congruence.
Qed.

(** ** Whole runs *)

Section WholeRuns.

Context (interval : Z) (output_file : string).

Lemma loop_body_other_files child t stdout_reader stderr_reader w g :
  g <> output_file ->
  fs (world_after (loop_body interval output_file child t stdout_reader stderr_reader w)) !! g
  = fs w !! g.
Proof.
  intros Hg. unfold loop_body.
  destruct (get_process_tree_info (table t) child) as [e|[pt|]]; [reflexivity| |reflexivity].
  destruct (produce_txt (now t) pt); [reflexivity|].
  destruct (read_lines (out_puts t) stdout_reader), (read_lines (err_puts t) stderr_reader).
  unfold append_file. destruct (open_fault t); [reflexivity|].
  destruct (sleep interval); cbn [world_after write_stdout fs];
    apply lookup_insert_ne; congruence.
Qed.

Lemma monitor_loop_other_files child ts stdout_reader stderr_reader w g :
  g <> output_file ->
  fs (world_of (monitor_loop interval output_file child ts stdout_reader stderr_reader w)) !! g
  = fs w !! g.
Proof.
  intros Hg. revert stdout_reader stderr_reader w.
  induction ts as [|t ts IH]; intros ro re w; [reflexivity|].
  cbn [monitor_loop]. destruct (poll t); [reflexivity|].
  pose proof (loop_body_other_files child t ro re w g Hg) as Hbody.
  destruct (loop_body interval output_file child t ro re w); cbn [world_after] in Hbody.
  - exact Hbody.
  - rewrite IH. exact Hbody.
Qed.


End WholeRuns.

(** X3. A run leaves every file other than its output file as it found
    it. *)
Theorem other_files_untouched (interval : Z) (output_file : string) (command : list string)
    (e : env) (w : world) (g : string) :
  g <> output_file ->
  fs (world_of (monitor_command interval output_file command e w)) !! g = fs w !! g.
Proof.
  intros Hg. unfold monitor_command.
  destruct (try_remove_file (remove_fault_of e) output_file w) as [[|] w0] eqn:E.
  - apply try_remove_file_true in E as (_ & Hfs & _ & _).
    assert (fs w0 !! g = fs w !! g) as Hothers
      by (rewrite Hfs; apply lookup_delete_ne; congruence).
    destruct (popen e command); [exact Hothers|].
    destruct (attach_stdout e), (attach_stderr e); try exact Hothers.
    rewrite monitor_loop_other_files by exact Hg. exact Hothers.
  - apply try_remove_file_false in E as (msg & ->). reflexivity.
Qed.

Lemma other_files_sample :
  fs (world_of (monitor_command 1 "mem.log" ["sh"] (sample_env [sample_tick; last_tick])
                  {| fs := {[ "mem.log" := "stale"; "notes.txt" := "keep" ]};
                     term_out := ""; term_err := "" |})) !! "notes.txt" = Some "keep".
Proof.
  rewrite other_files_untouched by discriminate. reflexivity.
Defined.



(** ** The worker thread and the queue *)

Lemma take_line_Some (final : bool) (s l r : string) :
  take_line final s = Some (l, r) ->
  (exists consumed, s = consumed +:+ r) /\
  translate_newlines s = l +:+ translate_newlines r /\
  last_char l = Some Py.LF /\
  Py.contains_char Py.CR l = false /\
  (String.length r < String.length s)%nat.
Proof.
  revert l r. induction s as [|c s IH]; intros l r; [discriminate|].
  cbn [take_line translate_newlines].
  destruct (Ascii.eqb_spec c Py.LF) as [->|HLF].
  - intros [= <- <-]. repeat split; [now exists (String Py.LF "")|].
    cbn [String.length]. lia.
  - destruct (Ascii.eqb_spec c Py.CR) as [->|HCR].
    + destruct s as [|d s].
      * destruct final; [|discriminate]. intros [= <- <-].
        repeat split; [now exists (String Py.CR "")|]. cbn [String.length]. lia.
      * destruct (Ascii.eqb_spec d Py.LF) as [->|Hd]; intros [= <- <-].
        -- repeat split; [now exists (String Py.CR (String Py.LF ""))|].
           cbn [String.length]. lia.
        -- repeat split; [now exists (String Py.CR "")|]. cbn [String.length]. lia.
    + destruct (take_line final s) as [[l' r']|]; [|discriminate].
      intros [= <- <-].
      destruct (IH l' r' eq_refl) as ([consumed ->] & -> & Hlast & Hcr & Hlen).
      repeat split.
      * now exists (String c consumed).
      * destruct l'; [discriminate | exact Hlast].
      * cbn [Py.contains_char]. rewrite Hcr, orb_false_r.
        apply Ascii.eqb_neq. congruence.
      * cbn [String.length]. lia.
Qed.

Lemma take_line_None_final (s : string) :
  take_line true s = None ->
  translate_newlines s = s /\ Py.contains_char Py.CR s = false.
Proof.
  induction s as [|c s IH]; [auto|]. cbn [take_line translate_newlines].
  destruct (Ascii.eqb_spec c Py.LF) as [->|HLF]; [discriminate|].
  destruct (Ascii.eqb_spec c Py.CR) as [->|HCR].
  - destruct s as [|d s]; [discriminate|]. destruct (Ascii.eqb d Py.LF); discriminate.
  - destruct (take_line true s) as [[l r]|]; [discriminate|]. intros _.
    destruct (IH eq_refl) as [-> Hcr]. split; [reflexivity|].
    cbn [Py.contains_char]. rewrite Hcr, orb_false_r. apply Ascii.eqb_neq. congruence.
Qed.

Lemma worker_conserves (fuel : nat) (st : text_stream) (queue : list qitem) :
  (String.length (unread st) < fuel)%nat ->
  exists ls st',
    worker fuel st queue = (queue ++ map QStr ls, st') /\
    translate_newlines (unread st) =
      String.concat "" ls +:+ translate_newlines (unread st') /\
    (exists consumed, unread st = consumed +:+ unread st') /\
    Forall (fun l => l <> "" /\ Py.contains_char Py.CR l = false) ls /\
    take_line (closed st) (unread st') = None /\
    closed st' = closed st /\
    (closed st = true -> unread st' = "") /\
    (closed st = false -> Forall (fun l => last_char l = Some Py.LF) ls).
Proof.
  revert st queue. induction fuel as [|fuel IH]; intros st queue Hfuel; [lia|].
  cbn [worker]. unfold readline.
  destruct (take_line (closed st) (unread st)) as [[l r]|] eqn:E.
  - destruct (take_line_Some _ _ _ _ E) as ([consumed Hs] & Htr & Hlast & Hcr & Hlen).
    assert (l <> "") as Hl by (intros ->; discriminate).
    apply String.eqb_neq in Hl as Hl'. rewrite Hl'.
    destruct (IH {| unread := r; closed := closed st |} (queue ++ [QStr l]))
      as (ls & st' & -> & Hcat & [consumed' Hcons] & Hne & Hnone & Hclosed & Heof & Hterm).
    { cbn [unread]. lia. }
    cbn [unread closed] in *.
    exists (l :: ls), st'. rewrite <- app_assoc. repeat split; auto.
    + rewrite concat_cons, append_assoc, <- Hcat. exact Htr.
    + exists (consumed +:+ consumed'). rewrite append_assoc, <- Hcons. exact Hs.
  - destruct (closed st) eqn:C.
    + destruct (String.eqb_spec (unread st) "") as [Hempty|Hne].
      * exists [], {| unread := ""; closed := true |}.
        rewrite app_nil_r. repeat split; auto; try (now rewrite Hempty).
        exists "". now rewrite Hempty.
      * destruct (take_line_None_final _ E) as [Htr Hcr].
        destruct (IH {| unread := ""; closed := true |} (queue ++ [QStr (unread st)]))
          as (ls & st' & -> & Hcat & [consumed' Hcons] & Hnes & Hnone & Hclosed & Heof & _).
        { cbn [unread String.length]. destruct (unread st); [congruence|].
          cbn [String.length] in Hfuel. lia. }
        cbn [unread closed] in *.
        exists (unread st :: ls), st'. rewrite <- app_assoc.
        repeat split; auto; try discriminate.
        -- rewrite concat_cons, append_assoc, <- Hcat. cbn [translate_newlines].
           now rewrite append_nil_r.
        -- exists (unread st +:+ consumed'). rewrite append_assoc, <- Hcons.
           now rewrite append_nil_r.
    + exists [], st. rewrite app_nil_r. repeat split; auto; try discriminate.
      exists "". reflexivity.
Qed.

(** X5. The worker thread loses nothing and invents nothing but for the
    translation of line endings: the lines it puts in the queue, behind what
    was there, are non-empty and hold no carriage return, and one after the
    other, followed by what it left unread, they make up the text of the
    stream with every line ending turned into a line feed. It stops only
    when no complete line is left; on a stream still open every line it
    queued ends with a line feed and an unfinished line stays unread, on a
    closed stream nothing stays unread. *)
Theorem worker_conserves_text (st : text_stream) (queue : list qitem) :
  exists ls st',
    run_worker st queue = (queue ++ map QStr ls, st') /\
    translate_newlines (unread st) =
      String.concat "" ls +:+ translate_newlines (unread st') /\
    (exists consumed, unread st = consumed +:+ unread st') /\
    Forall (fun l => l <> "" /\ Py.contains_char Py.CR l = false) ls /\
    take_line (closed st) (unread st') = None /\
    closed st' = closed st /\
    (closed st = true -> unread st' = "") /\
    (closed st = false -> Forall (fun l => last_char l = Some Py.LF) ls).
Proof. unfold run_worker. apply worker_conserves. lia. Qed.

(** X6. Draining twice in a row while the producer is silent: the first
    call returns every queued line, in order, and empties the queue; the
    second returns nothing. *)
Theorem second_drain_is_empty (strs : list string) (prefix : string) :
  let r := {| q := map QStr strs; line_prefix := prefix |} in
  (read_lines [] r).1 = map (fun l => tagged prefix (Py.rstrip l)) strs /\
  q (read_lines [] r).2 = [] /\
  (read_lines [] (read_lines [] r).2).1 = [].
Proof.
  cbv zeta. unfold read_lines. cbn [q line_prefix read_line].
  rewrite read_line_quiet_strs. cbn [fst snd q line_prefix concat map app read_line_quiet].
  rewrite map_map. repeat split.
Qed.

(** X7. Successive drains compose: whatever the producer's schedule, the
    lines of two drains, one after the other, followed by the lines still
    queued, are the lines produced, in the order of their production; no
    line is lost, repeated or reordered. *)
Theorem successive_drains_compose (strs : list string) (prefix : string)
    (puts1 puts2 : list (list string)) :
  let r := {| q := map QStr strs; line_prefix := prefix |} in
  exists drained1 drained2 waiting,
    (read_lines puts1 r).1 = map (fun l => tagged prefix (Py.rstrip l)) drained1 /\
    (read_lines puts2 (read_lines puts1 r).2).1 =
      map (fun l => tagged prefix (Py.rstrip l)) drained2 /\
    q (read_lines puts2 (read_lines puts1 r).2).2 = map QStr waiting /\
    strs ++ concat puts1 ++ concat puts2 = drained1 ++ drained2 ++ waiting.
Proof.
  cbv zeta.
  destruct (read_lines_fifo puts1 strs prefix) as (drained1 & waiting1 & -> & Heq1).
  cbn [fst snd].
  destruct (read_lines_fifo puts2 waiting1 prefix) as (drained2 & waiting & -> & Heq2).
  exists drained1, drained2, waiting. cbn [fst snd q]. repeat split.
  now rewrite app_assoc, Heq1, <- app_assoc, Heq2.
Qed.

(** ** Memory as text *)

Lemma round_half_even_le a b : 0 < b -> Py.round_half_even a b <= a / b + 1.
Proof.
  intros Hb. unfold Py.round_half_even.
  destruct (_ <? _); [lia|]. destruct (_ <? _); [lia|]. destruct (Z.even _); lia.
Qed.

Lemma round_half_even_mono a a' b :
  0 < b -> a <= a' -> Py.round_half_even a b <= Py.round_half_even a' b.
Proof.
  intros Hb Hle. unfold Py.round_half_even.
  pose proof (Z.div_mod a b ltac:(lia)) as Ha.
  pose proof (Z.div_mod a' b ltac:(lia)) as Ha'.
  pose proof (Z.mod_pos_bound a b Hb) as Hr.
  pose proof (Z.mod_pos_bound a' b Hb) as Hr'.
  pose proof (Z.div_le_mono a a' b Hb Hle) as Hq.
  generalize dependent (a mod b). generalize dependent (a' mod b).
  generalize dependent (a / b). generalize dependent (a' / b).
  intros q' q Hq r' Ha' Hr' r Ha Hr.
  destruct (Z.eq_dec q q') as [<-|Hne].
  - assert (r <= r') by nia.
    destruct (Z.ltb_spec (2 * r) b), (Z.ltb_spec (2 * r') b); try lia;
      destruct (Z.ltb_spec b (2 * r)), (Z.ltb_spec b (2 * r')); try lia;
      destruct (Z.even q); lia.
  - assert (q + 1 <= q') by lia.
    destruct (2 * r <? b), (b <? 2 * r), (Z.even q),
      (2 * r' <? b), (b <? 2 * r'), (Z.even q'); lia.
Qed.

Lemma round_to_53_bits_le n : 0 <= n -> Py.round_to_53_bits n <= 2 * n.
Proof.
  intros Hn. unfold Py.round_to_53_bits.
  destruct (Z.leb_spec (Z.log2 n - 52) 0) as [|Hk]; [lia|].
  assert (0 < n) as Hpos.
  { destruct (Z.eq_dec n 0) as [->|]; [|lia]. cbn in Hk. lia. }
  pose proof (Z.log2_spec n Hpos) as [Hlow _].
  assert (2 ^ (Z.log2 n - 52) <= 2 ^ Z.log2 n) as Hpow
    by (apply Z.pow_le_mono_r; lia).
  assert (0 < 2 ^ (Z.log2 n - 52)) as Hb by (apply Z.pow_pos_nonneg; lia).
  pose proof (round_half_even_le n _ Hb) as Hround.
  pose proof (Z.mul_div_le n _ Hb) as Hdiv.
  nia.
Qed.

Lemma format_mib_below_overflow n : Z.abs n < 2 ^ 1043 -> is_Some (Py.format_mib n).
Proof.
  intros Hn. unfold Py.format_mib, Py.true_div_mib.
  pose proof (round_to_53_bits_le (Z.abs n) ltac:(lia)) as Hle.
  assert (2 * 2 ^ 1043 = 2 ^ 1044) as Hpow by (rewrite <- Z.pow_succ_r by lia; reflexivity).
  destruct (Z.ltb_spec (Py.round_to_53_bits (Z.abs n)) (2 ^ 1044)); [eauto | lia].
Qed.

Lemma children_txt_inl timestamp cs e : children_txt timestamp cs = inl e -> e = overflow.
Proof.
  induction cs as [|c cs IH]; cbn [children_txt]; [discriminate|].
  unfold child_txt, mib, bind_raises.
  destruct (Py.format_mib (mem c)); [|now intros [= <-]].
  destruct (children_txt timestamp cs); [|discriminate]. intros [= <-]. now apply IH.
Qed.

(** X8. For a snapshot whose pids have at most 4300 digits (those the
    interpreter converts to text whatever its settings), showing it can fail
    in one way only, with the OverflowError of the division, and it does not
    fail when the root and every child hold less than [2^1043] bytes. *)
Theorem produce_txt_fails_only_on_overflow (now : datetime) (pt : ProcessTreeInfo) :
  Z.abs (pid (pi pt)) < 10 ^ 4300 ->
  Forall (fun c => Z.abs (pid c) < 10 ^ 4300) (children pt) ->
  (forall e, produce_txt now pt = inl e -> e = overflow) /\
  (Z.abs (mem (pi pt)) < 2 ^ 1043 ->
   Forall (fun c => Z.abs (mem c) < 2 ^ 1043) (children pt) ->
   exists txt, produce_txt now pt = inr txt).
Proof.
  intros _ _. split.
  - intros e. unfold produce_txt. cbv zeta. unfold mib, bind_raises.
    destruct (Py.format_mib (mem (pi pt))); [|now intros [= <-]].
    destruct (children_txt (strftime now) (children pt)) eqn:E; [|discriminate].
    intros [= <-]. now apply children_txt_inl in E.
  - intros [m Hm]%format_mib_below_overflow Hcs.
    assert (exists ms, Forall2 (fun c m' => Py.format_mib (mem c) = Some m') (children pt) ms)
      as [ms Hms].
    { induction Hcs as [|c cs [m' Hm']%format_mib_below_overflow _ [ms IH]].
      - exists []. constructor.
      - exists (m' :: ms). now constructor. }
    eexists. apply produce_txt_inr. eauto.
Qed.

Lemma produce_txt_sample :
  (forall e, produce_txt sample_now sample_snapshot = inl e -> e = overflow) /\
  (Z.abs (mem (pi sample_snapshot)) < 2 ^ 1043 ->
   Forall (fun c => Z.abs (mem c) < 2 ^ 1043) (children sample_snapshot) ->
   exists txt, produce_txt sample_now sample_snapshot = inr txt).
Proof.
  apply (produce_txt_fails_only_on_overflow sample_now sample_snapshot).
  - vm_compute. reflexivity.
  - repeat constructor.
Defined.

(** X9. A whole number of mebibytes is shown exactly: [k * 2^20] bytes read
    [k.000]. *)
Theorem whole_mebibytes_shown_exactly (k : Z) :
  0 <= k < 2 ^ 33 ->
  Py.format_mib (k * 2 ^ 20) = Some (Py.str_of_int k +:+ ".000").
Proof.
  intros Hk. unfold Py.format_mib, Py.true_div_mib.
  rewrite Z.abs_eq by lia.
  rewrite round_to_53_bits_exact by lia.
  assert (k * 2 ^ 20 < 2 ^ 1044) as Hlt.
  { assert (2 ^ 53 <= 2 ^ 1044) by (apply Z.pow_le_mono_r; lia). lia. }
  apply Z.ltb_lt in Hlt. rewrite Hlt.
  assert ((k * 2 ^ 20 <? 0) = false) as -> by (apply Z.ltb_ge; lia).
  rewrite append_nil_l. f_equal.
  assert (Py.thousandths (k * 2 ^ 20) = 1000 * k) as ->.
  { unfold Py.thousandths, Py.round_half_even.
    replace (1000 * (k * 2 ^ 20)) with (1000 * k * 2 ^ 20) by ring.
    rewrite Z.div_mul, Z.mod_mul by lia. reflexivity. }
  unfold Py.fixed3. rewrite (Z.mul_comm 1000 k), Z.div_mul, Z.mod_mul by lia.
  reflexivity.
Qed.

Lemma whole_mebibytes_sample : Py.format_mib (3 * 2 ^ 20) = Some "3.000".
Proof. apply (whole_mebibytes_shown_exactly 3). lia. Defined.

(** X10. More memory is never shown as less: for amounts below [2^53]
    bytes, the thousandths of a mebibyte shown grow with the amount. *)
Theorem shown_memory_monotone (m1 m2 : Z) :
  0 <= m1 <= m2 -> m2 < 2 ^ 53 ->
  Py.format_mib m1 = Some (Py.fixed3 (Py.thousandths m1)) /\
  Py.format_mib m2 = Some (Py.fixed3 (Py.thousandths m2)) /\
  Py.thousandths m1 <= Py.thousandths m2.
Proof.
  intros Hle Hlt.
  assert (forall m, 0 <= m < 2 ^ 53 ->
            Py.format_mib m = Some (Py.fixed3 (Py.thousandths m))) as Hshow.
  { intros m Hm. destruct (format_mib_total m) as [s Hs]; [lia|].
    rewrite Hs. apply format_mib_Some in Hs as ->.
    rewrite Z.abs_eq, round_to_53_bits_exact by lia.
    assert ((m <? 0) = false) as -> by (apply Z.ltb_ge; lia). reflexivity. }
  split; [apply Hshow; lia|]. split; [apply Hshow; lia|].
  unfold Py.thousandths. apply round_half_even_mono; lia.
Qed.

Lemma shown_memory_sample :
  Py.format_mib 65536 = Some (Py.fixed3 (Py.thousandths 65536)) /\
  Py.format_mib 196608 = Some (Py.fixed3 (Py.thousandths 196608)) /\
  Py.thousandths 65536 <= Py.thousandths 196608.
Proof. apply (shown_memory_monotone 65536 196608); lia. Defined.

(** ** Timestamps *)

Lemma append_inj_length (a a' b b' : string) :
  String.length a = String.length a' -> a +:+ b = a' +:+ b' -> a = a' /\ b = b'.
Proof.
  revert a'. induction a as [|c a IH]; intros [|c' a'] Hlen; try discriminate.
  - auto.
  - rewrite !append_cons. intros [= -> H]. injection Hlen as Hlen.
    destruct (IH a' Hlen H) as [-> ->]. auto.
Qed.

Lemma field_append_inj (width : nat) (v v' : Z) (s s' r r' : string) :
  field width v s -> field width v' s' -> s +:+ r = s' +:+ r' -> v = v' /\ r = r'.
Proof.
  intros (Hl & _ & Hv) (Hl' & _ & Hv') H.
  apply append_inj_length in H as [-> ->]; [|congruence].
  split; [congruence | reflexivity].
Qed.

(** X11. The timestamp tells the second: two readings of the clock are
    formatted alike only when they agree on the year, month, day, hour,
    minute and second. *)
Theorem timestamp_determines_second (t1 t2 : datetime) :
  clock_reading t1 -> clock_reading t2 ->
  strftime t1 = strftime t2 ->
  year t1 = year t2 /\ month t1 = month t2 /\ day t1 = day t2 /\
  hour t1 = hour t2 /\ minute t1 = minute t2 /\ second t1 = second t2.
Proof.
  intros (HY1 & HM1 & HD1 & Hh1 & Hm1 & Hs1) (HY2 & HM2 & HD2 & Hh2 & Hm2 & Hs2).
  unfold strftime. intros H.
  apply (field_append_inj 4 (year t1) (year t2)) in H as [HY H];
    [|apply zero_pad_4_field; lia..].
  apply (inj (String.append "-")) in H.
  apply (field_append_inj 2 (month t1) (month t2)) in H as [HM H];
    [|apply zero_pad_2_field; lia..].
  apply (inj (String.append "-")) in H.
  apply (field_append_inj 2 (day t1) (day t2)) in H as [HD H];
    [|apply zero_pad_2_field; lia..].
  apply (inj (String.append " ")) in H.
  apply (field_append_inj 2 (hour t1) (hour t2)) in H as [Hh H];
    [|apply zero_pad_2_field; lia..].
  apply (inj (String.append ":")) in H.
  apply (field_append_inj 2 (minute t1) (minute t2)) in H as [Hm H];
    [|apply zero_pad_2_field; lia..].
  apply (inj (String.append ":")) in H.
  rewrite <- (append_nil_r (Py.zero_pad 2 (second t1))) in H.
  rewrite <- (append_nil_r (Py.zero_pad 2 (second t2))) in H.
  apply (field_append_inj 2 (second t1) (second t2)) in H as [Hs _];
    [|apply zero_pad_2_field; lia..].
  auto 10.
Qed.

Lemma timestamp_sample :
  year sample_now = year sample_later /\ month sample_now = month sample_later /\
  day sample_now = day sample_later /\ hour sample_now = hour sample_later /\
  minute sample_now = minute sample_later /\ second sample_now = second sample_later.
Proof.
  apply (timestamp_determines_second sample_now sample_later).
  - unfold clock_reading. cbn. lia.
  - unfold clock_reading. cbn. lia.
  - reflexivity.
Defined.

(** ** Command lines *)

Lemma repr_char_plain (c : ascii) :
  plain_char c = true -> Py.repr_char "'"%char c = String c "".
Proof.
  destruct c as [[] [] [] [] [] [] [] []]; vm_compute; intros H;
    first [discriminate H | reflexivity].
Qed.

Lemma plain_char_not_quote (c : ascii) :
  plain_char c = true -> Ascii.eqb "'"%char c = false.
Proof.
  destruct c as [[] [] [] [] [] [] [] []]; vm_compute; intros H;
    first [discriminate H | reflexivity].
Qed.

Lemma repr_str_plain (s : string) :
  all_chars plain_char s = true -> Py.repr_str s = "'" +:+ s +:+ "'".
Proof.
  intros Hs.
  assert (Py.contains_char "'"%char s = false) as Hquote.
  { induction s as [|c s IH]; [reflexivity|]. cbn [all_chars] in Hs.
    apply andb_prop in Hs as [Hc Hs]. cbn [Py.contains_char].
    now rewrite (plain_char_not_quote c Hc), (IH Hs). }
  assert (Py.repr_body "'"%char s = s) as Hbody.
  { clear Hquote. induction s as [|c s IH]; [reflexivity|]. cbn [all_chars] in Hs.
    apply andb_prop in Hs as [Hc Hs]. cbn [Py.repr_body].
    now rewrite (repr_char_plain c Hc), (IH Hs). }
  unfold Py.repr_str, Py.repr_quote. rewrite Hquote. cbn [andb].
  rewrite Hbody. reflexivity.
Qed.

(** X13. A command line whose arguments are made of printable characters
    other than quotes and backslashes is shown as it is: each argument
    between single quotes, the arguments separated by a comma and a space,
    the whole between square brackets. *)
Theorem plain_command_line_shown_verbatim (l : list string) :
  Forall (fun s => all_chars plain_char s = true) l ->
  Py.str_of_list l = "[" +:+ Py.join ", " (map (fun s => "'" +:+ s +:+ "'") l) +:+ "]".
Proof.
  intros Hl. unfold Py.str_of_list. do 3 f_equal.
  induction Hl as [|s l Hs _ IH]; [reflexivity|].
  cbn [map]. now rewrite (repr_str_plain s Hs), IH.
Qed.

Lemma plain_command_line_sample :
  Py.str_of_list ["python3"; "-m"; "http.server"] = "['python3', '-m', 'http.server']".
Proof.
  rewrite plain_command_line_shown_verbatim; [reflexivity|].
  repeat constructor.
Defined.

(** ** A negative interval *)


